(** * DDCalc_exampleC: the interactive example driver of DDCalc

    A shallow embedding of [examples/DDCalc_exampleC.cpp]: the command-line
    parser, the line reader [GetWIMPParams] with its cascade of defaults, the
    input loop of [main] and the final [FreeAll].

    What the program computes with is outside of it: the DDCalc library
    (halo, WIMP and detector objects behind integer handles), [std::cin],
    [std::cout]/[printf], and the conversion of text to [double].  They are
    modelled as follows.
    - [double] is an abstract type ([FloatOps]); only the characters that the
      stream extractor consumes and whether it succeeds are modelled
      concretely.
    - the library is an abstract state machine ([DDCalcLib]); every call the
      program makes is recorded in the event trace.
    - output is recorded call by call ([Cout], [Printf]); the rendering of a
      [printf] format is not modelled.
    - standard input is the list of its lines; a read at its end gives the
      empty line, as [getline] does on a stream that has failed.
    - the [while] loop runs on fuel; with more fuel than input lines it ends
      by itself ([input_loop_run], [run_total]).

    [WriteDescription] is defined in the source but never called, and the
    local [lnp] is never used; neither is modelled. *)

From Stdlib Require Import List String Ascii ZArith Bool Arith Lia.
Import ListNotations.

Local Open Scope string_scope.
Local Open Scope list_scope.

(** ** Floating point values *)

(** The program only reads, copies and prints [double]s, and writes the
    literal [0.0].  [strtod] is the value the C library gives to a complete
    decimal floating literal; [is_huge v] is [v == HUGE_VAL || v == -HUGE_VAL]. *)
Class FloatOps : Type := {
  double : Type;
  dzero : double;
  strtod : list ascii -> double;
  is_huge : double -> bool
}.

(** A line of text, as held by a [std::string] or left in the buffer of a
    [std::istringstream]. *)
Definition text := list ascii.

Definition txt (s : string) : text := list_ascii_of_string s.

(** ** [std::istringstream >> double]

    The extraction is that of GNU libstdc++ in the "C" locale: the sentry
    skips white space, [num_get::_M_extract_float] accumulates the characters
    of a floating literal into [xtrc], and [__convert_to_v] hands [xtrc] to
    [strtod]. *)
Module IStream.

(** [isspace] in the "C" locale: space, and HT LF VT FF CR. *)
Definition is_space (c : ascii) : bool :=
  let n := nat_of_ascii c in
  (n =? 32)%nat || ((9 <=? n)%nat && (n <=? 13)%nat).

Definition is_digit (c : ascii) : bool :=
  let n := nat_of_ascii c in
  (48 <=? n)%nat && (n <=? 57)%nat.

Definition is_sign (c : ascii) : bool :=
  Ascii.eqb c "+" || Ascii.eqb c "-".

Definition is_point (c : ascii) : bool := Ascii.eqb c ".".

Definition is_exp (c : ascii) : bool :=
  Ascii.eqb c "e" || Ascii.eqb c "E".

(** The sentry of a formatted input function with [skipws] set. *)
Fixpoint skipws (s : text) : text :=
  match s with
  | [] => []
  | c :: r => if is_space c then skipws r else s
  end.

(** "First check for sign." *)
Definition scan_sign (s : text) : text * text :=
  match s with
  | c :: r => if is_sign c then ([c], r) else ([], s)
  | [] => ([], [])
  end.

(** "Next, look for leading zeros": all of them are consumed, one ["0"] is
    kept in [xtrc]; the result tells whether a mantissa digit was found. *)
Fixpoint scan_zeros (s : text) : text :=
  match s with
  | c :: r => if Ascii.eqb c "0" then scan_zeros r else s
  | [] => []
  end.

Definition leading_zero (s : text) : bool :=
  match s with
  | c :: _ => Ascii.eqb c "0"
  | [] => false
  end.

(** The main loop, with its three flags [__found_mantissa], [__found_dec]
    and [__found_sci].  After an exponent letter an optional sign is taken
    at once; any other character is looked at again by the loop. *)
Fixpoint scan_body (fm fd fs : bool) (s : text) : text * text :=
  match s with
  | [] => ([], [])
  | c :: r =>
      if is_digit c then
        let '(x, rest) := scan_body true fd fs r in (c :: x, rest)
      else if is_point c && negb fd && negb fs then
        let '(x, rest) := scan_body fm true fs r in ("."%char :: x, rest)
      else if is_exp c && negb fs && fm then
        match r with
        | [] => (["e"%char], [])
        | c2 :: r2 =>
            if is_sign c2 then
              let '(x, rest) := scan_body fm fd true r2 in
              ("e"%char :: c2 :: x, rest)
            else
              let '(x, rest) := scan_body fm fd true r in
              ("e"%char :: x, rest)
        end
      else ([], s)
  end.

(** [_M_extract_float]: the accumulated [xtrc] and what is left unread. *)
Definition M_extract_float (s : text) : text * text :=
  let '(sg, s1) := scan_sign s in
  let fm := leading_zero s1 in
  let s2 := scan_zeros s1 in
  let '(x, rest) := scan_body fm false false s2 in
  (sg ++ (if fm then ["0"%char] else []) ++ x, rest).

(** Does [strtod] consume all of [xtrc]?  [xtrc] holds only signs, digits,
    a point and ["e"], so this is the decimal grammar: an optional sign,
    digits with an optional point and at least one digit, and an optional
    exponent that has at least one digit. *)
Fixpoint span_digits (s : text) : nat * text :=
  match s with
  | c :: r =>
      if is_digit c then let '(n, rest) := span_digits r in (S n, rest)
      else (O, s)
  | [] => (O, [])
  end.

Definition drop_sign (s : text) : text :=
  match s with
  | c :: r => if is_sign c then r else s
  | [] => []
  end.

Definition complete_literal (xtrc : text) : bool :=
  let '(n1, s2) := span_digits (drop_sign xtrc) in
  let '(n2, s3) :=
    match s2 with
    | c :: r => if is_point c then span_digits r else (O, s2)
    | [] => (O, s2)
    end in
  if (n1 + n2 =? 0)%nat then false
  else
    match s3 with
    | [] => true
    | c :: r =>
        if is_exp c then
          let '(n3, s4) := span_digits (drop_sign r) in
          negb (n3 =? 0)%nat && match s4 with [] => true | _ => false end
        else false
    end.

Section Conversion.
Context {F : FloatOps}.

(** [__convert_to_v]: failure when [strtod] stops early or overflows. *)
Definition convert_to_v (xtrc : text) : option double :=
  if complete_literal xtrc then
    let v := strtod xtrc in
    if is_huge v then None else Some v
  else None.

(** [iss >> x]: the value and the rest of the buffer, or failure. *)
Definition extract (s : text) : option (double * text) :=
  let '(xtrc, rest) := M_extract_float (skipws s) in
  match convert_to_v xtrc with
  | Some v => Some (v, rest)
  | None => None
  end.

End Conversion.

End IStream.

(** ** The DDCalc library and the observable events *)

(** [const int TYPE_MG = 1; const int TYPE_MFA = 2;] *)
Definition TYPE_MG : Z := 1.
Definition TYPE_MFA : Z := 2.

(** The five numbers read from a line: [M], [xpSI], [xnSI], [xpSD], [xnSD]. *)
Record CouplingSet {F : FloatOps} : Type := mkCS {
  cs_M : double;
  cs_pSI : double;
  cs_nSI : double;
  cs_pSD : double;
  cs_nSD : double
}.
Arguments mkCS {F} _ _ _ _ _.

(** The part of [DDCalc.hpp] the program calls.  Handles are [int]s.  The
    getters fill their reference arguments, here returned as a record.  The
    five per-detector accessors appear as arguments of one [printf], where
    C++ leaves their order of evaluation open: they are reads of the state. *)
Class DDCalcLib {F : FloatOps} : Type := {
  lib_state : Type;
  InitHalo : lib_state -> Z * lib_state;
  InitWIMP : lib_state -> Z * lib_state;
  XENON100_2012_Init : lib_state -> Z * lib_state;
  LUX_2013_Init : lib_state -> Z * lib_state;
  SuperCDMS_2014_Init : lib_state -> Z * lib_state;
  SIMPLE_2014_Init : lib_state -> Z * lib_state;
  SetWIMP_mG : Z -> CouplingSet -> lib_state -> lib_state;
  SetWIMP_mfa : Z -> CouplingSet -> lib_state -> lib_state;
  GetWIMP_mfa : Z -> lib_state -> CouplingSet * lib_state;
  GetWIMP_mG : Z -> lib_state -> CouplingSet * lib_state;
  CalcRates : Z -> Z -> Z -> lib_state -> lib_state;
  Events : Z -> lib_state -> Z;
  Background : Z -> lib_state -> double;
  Signal : Z -> lib_state -> double;
  LogLikelihood : Z -> lib_state -> double;
  ScaleToPValue : Z -> lib_state -> double;
  FreeAll : lib_state -> lib_state
}.

(** A computation returns, leaves the process through [exit], or is a loop
    cut short by the bound of the model. *)
Inductive Outcome (A : Type) : Type :=
| Return (a : A)
| Exit (code : Z)
| OutOfFuel.
Arguments Return {A} a.
Arguments Exit {A} code.
Arguments OutOfFuel {A}.

(** The handles [main] keeps in [Halo], [WIMP], [XENON], [LUX], [SCDMS]
    and [SIMPLE]. *)
Record Handles : Type := mkHandles {
  Halo : Z;
  WIMP : Z;
  XENON : Z;
  LUX : Z;
  SCDMS : Z;
  SIMPLE : Z
}.

(** ** A small instance, to run the program on concrete input *)

(** Doubles that are the text handed to [strtod]; nothing overflows. *)
Definition text_float : FloatOps := {|
  double := string;
  dzero := "0.0";
  strtod := string_of_list_ascii;
  is_huge := fun _ => false
|}.

(** A library that numbers its objects from 1 and stores the couplings of
    the WIMP as they were given. *)
Record toy_state : Type := mkToy {
  toy_next : Z;
  toy_wimp : @CouplingSet text_float
}.

Definition toy_init (s : toy_state) : Z * toy_state :=
  (toy_next s, mkToy (toy_next s + 1) (toy_wimp s)).

Definition toy_lib : @DDCalcLib text_float := {|
  lib_state := toy_state;
  InitHalo := toy_init;
  InitWIMP := toy_init;
  XENON100_2012_Init := toy_init;
  LUX_2013_Init := toy_init;
  SuperCDMS_2014_Init := toy_init;
  SIMPLE_2014_Init := toy_init;
  SetWIMP_mG := fun _ cs s => mkToy (toy_next s) cs;
  SetWIMP_mfa := fun _ cs s => mkToy (toy_next s) cs;
  GetWIMP_mfa := fun _ s => (toy_wimp s, s);
  GetWIMP_mG := fun _ s => (toy_wimp s, s);
  CalcRates := fun _ _ _ s => s;
  Events := fun _ _ => 0%Z;
  Background := fun _ _ => "0.0";
  Signal := fun _ _ => "0.0";
  LogLikelihood := fun _ _ => "0.0";
  ScaleToPValue := fun _ _ => "1.0";
  FreeAll := fun s => mkToy 1 (toy_wimp s)
|}.

Definition toy0 : @lib_state text_float toy_lib :=
  mkToy 1 (@mkCS text_float "0.0" "0.0" "0.0" "0.0" "0.0").

(** The handles the toy library gives out, and its state behind them. *)
Definition toy_handles : Handles := mkHandles 1 2 3 4 5 6.

Definition toy_ready : @lib_state text_float toy_lib :=
  mkToy 7 (@mkCS text_float "0.0" "0.0" "0.0" "0.0" "0.0").

Section Program.
Context {F : FloatOps} {L : DDCalcLib}.

(** ** Events *)

(** An argument of [printf] after the format. *)
Inductive PfArg : Type :=
| PStr (s : string)
| PDbl (d : double)
| PInt (n : Z).

(** What the program does to the outside, in order.  [Cout s] is
    [std::cout << s << std::endl]; the [Call_] events are the calls into
    the library, the factories with the handle they returned. *)
Inductive Event : Type :=
| Cout (line : string)
| Printf (fmt : string) (args : list PfArg)
| Call_InitHalo (h : Z)
| Call_InitWIMP (h : Z)
| Call_XENON100_2012_Init (h : Z)
| Call_LUX_2013_Init (h : Z)
| Call_SuperCDMS_2014_Init (h : Z)
| Call_SIMPLE_2014_Init (h : Z)
| Call_SetWIMP_mG (wimp : Z) (cs : CouplingSet)
| Call_SetWIMP_mfa (wimp : Z) (cs : CouplingSet)
| Call_GetWIMP_mfa (wimp : Z)
| Call_GetWIMP_mG (wimp : Z)
| Call_CalcRates (det wimp halo : Z)
| Call_FreeAll.

(** ** Program state and the monad of [main] *)

(** [st_type] is the local variable [type] of [main], [st_cin] the lines
    still unread on standard input. *)
Record State : Type := mkState {
  st_type : Z;
  st_lib : lib_state;
  st_cin : list text
}.

Record Result (A : Type) : Type := mkResult {
  outcome : Outcome A;
  final : State;
  events : list Event
}.
Arguments mkResult {A} _ _ _.
Arguments outcome {A} _.
Arguments final {A} _.
Arguments events {A} _.

Definition Prog (A : Type) : Type := State -> Result A.

Definition ret {A} (a : A) : Prog A := fun s => mkResult (Return a) s [].

Definition bind {A B} (m : Prog A) (k : A -> Prog B) : Prog B :=
  fun s =>
    let r := m s in
    match outcome r with
    | Return a =>
        let r' := k a (final r) in
        mkResult (outcome r') (final r') (events r ++ events r')
    | Exit c => mkResult (Exit c) (final r) (events r)
    | OutOfFuel => mkResult OutOfFuel (final r) (events r)
    end.

Notation "x <- c ;; k" := (bind c (fun x => k))
  (at level 61, c at next level, right associativity).
Notation "c ;; k" := (bind c (fun _ => k))
  (at level 61, right associativity).

Definition emit (e : Event) : Prog unit := fun s => mkResult (Return tt) s [e].

Definition cout (line : string) : Prog unit := emit (Cout line).

Definition printf (fmt : string) (args : list PfArg) : Prog unit :=
  emit (Printf fmt args).

Definition exit {A} (code : Z) : Prog A := fun s => mkResult (Exit code) s [].

Definition out_of_fuel {A} : Prog A := fun s => mkResult OutOfFuel s [].

Definition get_type : Prog Z := fun s => mkResult (Return (st_type s)) s [].

Definition set_type (t : Z) : Prog unit :=
  fun s => mkResult (Return tt) (mkState t (st_lib s) (st_cin s)) [].

Definition get_lib : Prog lib_state :=
  fun s => mkResult (Return (st_lib s)) s [].

(** [getline(std::cin, line)]: at the end of the stream the line is empty. *)
Definition getline : Prog text :=
  fun s =>
    match st_cin s with
    | [] => mkResult (Return []) s []
    | l :: r => mkResult (Return l) (mkState (st_type s) (st_lib s) r) []
    end.

(** A library call that returns a value, and one that returns nothing. *)
Definition lib_call {A} (f : lib_state -> A * lib_state) (e : A -> Event)
  : Prog A :=
  fun s =>
    let '(a, l) := f (st_lib s) in
    mkResult (Return a) (mkState (st_type s) l (st_cin s)) [e a].

Definition lib_do (f : lib_state -> lib_state) (e : Event) : Prog unit :=
  fun s => mkResult (Return tt) (mkState (st_type s) (f (st_lib s)) (st_cin s)) [e].

(** ** [GetWIMPParams] *)

Import IStream.

(** "Parse input line": the five extractions and the defaults for the
    fields that could not be read.  [None] is [return false]; on
    [return true] all five reference arguments have been assigned. *)
Definition parse_line (line : text) : option CouplingSet :=
  match extract line with
  | None => None
  | Some (M, s1) =>
      match extract s1 with
      | None => None
      | Some (xpSI, s2) =>
          match extract s2 with
          | None => Some (mkCS M xpSI xpSI dzero dzero)
          | Some (xnSI, s3) =>
              match extract s3 with
              | None => Some (mkCS M xpSI xnSI dzero dzero)
              | Some (xpSD, s4) =>
                  match extract s4 with
                  | None => Some (mkCS M xpSI xnSI xpSD xpSD)
                  | Some (xnSD, _) => Some (mkCS M xpSI xnSI xpSD xnSD)
                  end
              end
          end
      end
  end.

(** The prompt; the [switch] has no [default]. *)
Definition prompt (type : Z) : Prog unit :=
  cout "" ;;
  cout "------------------------------------------------------------" ;;
  if (type =? TYPE_MG)%Z then cout "Enter values <M GpSI GnSI GpSD GnSD>:"
  else if (type =? TYPE_MFA)%Z then cout "Enter values <M fp fn ap an>:"
  else ret tt.

Definition GetWIMPParams (type : Z) : Prog (option CouplingSet) :=
  prompt type ;;
  line <- getline ;;
  ret (parse_line line).

(** ** [main] *)

Definition usage : Prog unit :=
  cout "Usage:" ;;
  cout "  ./DDCalc_exampleC [--mG|--mfa]" ;;
  cout "where the optional flag specifies the form in which the WIMP-" ;;
  cout "nucleon couplings will be provided (default: --mfa).".

Definition warning (arg : string) : string :=
  "WARNING:  Ignoring unknown argument '" ++ arg ++ "'.".

(** The body of the [for] loop over [argv[1]], ..., [argv[argc-1]]. *)
Definition parse_arg (arg : string) : Prog unit :=
  if String.eqb arg "--mG" then set_type TYPE_MG
  else if String.eqb arg "--mfa" then set_type TYPE_MFA
  else if String.eqb arg "--help" then usage ;; exit 0
  else cout (warning arg).

Fixpoint parse_args (args : list string) : Prog unit :=
  match args with
  | [] => ret tt
  | a :: rest => parse_arg a ;; parse_args rest
  end.

(** "Parse command line options": [type = TYPE_MFA] and the loop from
    [i = 1]; [argv[0]] is not looked at. *)
Definition parse_command_line (argv : list string) : Prog unit :=
  set_type TYPE_MFA ;;
  parse_args (tl argv).

(** The six factory calls, in the order of the source. *)
Definition init_session : Prog Handles :=
  halo <- lib_call InitHalo Call_InitHalo ;;
  wimp <- lib_call InitWIMP Call_InitWIMP ;;
  xenon <- lib_call XENON100_2012_Init Call_XENON100_2012_Init ;;
  lux <- lib_call LUX_2013_Init Call_LUX_2013_Init ;;
  scdms <- lib_call SuperCDMS_2014_Init Call_SuperCDMS_2014_Init ;;
  simple <- lib_call SIMPLE_2014_Init Call_SIMPLE_2014_Init ;;
  ret (mkHandles halo wimp xenon lux scdms simple).

(** "Set the WIMP parameters": the [switch] on [type], without [default]. *)
Definition set_wimp (h : Handles) (type : Z) (cs : CouplingSet) : Prog unit :=
  if (type =? TYPE_MG)%Z then
    lib_do (SetWIMP_mG (WIMP h) cs) (Call_SetWIMP_mG (WIMP h) cs)
  else if (type =? TYPE_MFA)%Z then
    lib_do (SetWIMP_mfa (WIMP h) cs) (Call_SetWIMP_mfa (WIMP h) cs)
  else ret tt.

(** "Print out the above WIMP mass, couplings, and cross sections."  [M] is
    the mass the last getter wrote. *)
Definition print_wimp (mfa mG : CouplingSet) : Prog unit :=
  printf "%s %- #12.5g\n" [PStr "WIMP mass [GeV]     "; PDbl (cs_M mG)] ;;
  cout "" ;;
  printf "%-28s %11s %11s %11s %11s\n"
    [PStr "WIMP-nucleon couplings"; PStr " proton-SI "; PStr " neutron-SI";
     PStr " proton-SD "; PStr " neutron-SD"] ;;
  printf "%-28s %- #11.5g %- #11.5g %- #11.5g %- #11.5g\n"
    [PStr "  G [GeV^-2]"; PDbl (cs_pSI mG); PDbl (cs_nSI mG);
     PDbl (cs_pSD mG); PDbl (cs_nSD mG)] ;;
  printf "%-28s %- #11.5g %- #11.5g %- #11.5g %- #11.5g\n"
    [PStr "  f & a [GeV^-2,unitless]"; PDbl (cs_pSI mfa); PDbl (cs_nSI mfa);
     PDbl (cs_pSD mfa); PDbl (cs_nSD mfa)] ;;
  cout "".

Definition calc_rates (h : Handles) : Prog unit :=
  lib_do (CalcRates (XENON h) (WIMP h) (Halo h))
         (Call_CalcRates (XENON h) (WIMP h) (Halo h)) ;;
  lib_do (CalcRates (LUX h) (WIMP h) (Halo h))
         (Call_CalcRates (LUX h) (WIMP h) (Halo h)) ;;
  lib_do (CalcRates (SCDMS h) (WIMP h) (Halo h))
         (Call_CalcRates (SCDMS h) (WIMP h) (Halo h)) ;;
  lib_do (CalcRates (SIMPLE h) (WIMP h) (Halo h))
         (Call_CalcRates (SIMPLE h) (WIMP h) (Halo h)).

(** One row of the table: an accessor applied to the four detectors. *)
Definition row (h : Handles) (f : Z -> lib_state -> double) (l : lib_state)
  : list PfArg :=
  [PDbl (f (XENON h) l); PDbl (f (LUX h) l);
   PDbl (f (SCDMS h) l); PDbl (f (SIMPLE h) l)].

Definition fmt_row : string :=
  "%-20s  %- #11.5g  %- #11.5g  %- #11.5g  %- #11.5g  \n".

Definition print_table (h : Handles) : Prog unit :=
  printf "%-20s  %11s  %11s  %11s  %11s\n"
    [PStr ""; PStr " XENON 2012"; PStr " LUX 2013  "; PStr "SuCDMS 2014";
     PStr "SIMPLE 2014"] ;;
  l <- get_lib ;;
  printf "%-20s  % 6i       % 6i       % 6i       % 6i       \n"
    [PStr "Observed events     "; PInt (Events (XENON h) l);
     PInt (Events (LUX h) l); PInt (Events (SCDMS h) l);
     PInt (Events (SIMPLE h) l)] ;;
  printf fmt_row (PStr "Expected background " :: row h Background l) ;;
  printf fmt_row (PStr "Expected signal     " :: row h Signal l) ;;
  printf fmt_row (PStr "Log-likelihood      " :: row h LogLikelihood l) ;;
  printf fmt_row (PStr "Rescaling for 90% CL" :: row h ScaleToPValue l) ;;
  cout " * This is the factor by which the cross section must be rescaled to give the desired p-value".

(** The body of the [while] loop. *)
Definition update_and_report (h : Handles) (cs : CouplingSet) : Prog unit :=
  cout "" ;;
  type <- get_type ;;
  set_wimp h type cs ;;
  mfa <- lib_call (GetWIMP_mfa (WIMP h)) (fun _ => Call_GetWIMP_mfa (WIMP h)) ;;
  mG <- lib_call (GetWIMP_mG (WIMP h)) (fun _ => Call_GetWIMP_mG (WIMP h)) ;;
  print_wimp mfa mG ;;
  calc_rates h ;;
  print_table h.

(** [while (GetWIMPParams(type, M, xpSI, xnSI, xpSD, xnSD)) { ... }].
    Every test of the condition takes one line from the input or finds it
    at its end, so [fuel] bounds the number of tests. *)
Fixpoint input_loop (fuel : nat) (h : Handles) : Prog unit :=
  match fuel with
  | O => out_of_fuel
  | S n =>
      type <- get_type ;;
      r <- GetWIMPParams type ;;
      match r with
      | None => ret tt
      | Some cs => update_and_report h cs ;; input_loop n h
      end
  end.

(** [main(argc, argv)]; falling off the end of [main] returns 0. *)
Definition main (fuel : nat) (argv : list string) : Prog Z :=
  parse_command_line argv ;;
  h <- init_session ;;
  input_loop fuel h ;;
  lib_do FreeAll Call_FreeAll ;;
  ret 0%Z.

(** The run of the process: [type] is not initialised at entry, any value
    stands for it. *)
Definition run (fuel : nat) (argv : list string) (cin : list text)
  (l0 : lib_state) : Result Z :=
  main fuel argv (mkState 0%Z l0 cin).

(** ** [WriteDescription] *)

(** "Write a description of how input parameters should be specified."
    The [switch] has no [default]. *)
Definition WriteDescription (type : Z) : Prog unit :=
  cout "" ;;
  cout "Enter WIMP parameters below.  Only the first two are necessary." ;;
  cout "A blank line terminates input.  The parameters are:" ;;
  cout "" ;;
  if (type =? TYPE_MG)%Z then
    cout "  M     WIMP mass [GeV]" ;;
    cout "  GpSI  Spin-independent WIMP-proton effective coupling [GeV^-2]" ;;
    cout "  GnSI  Spin-independent WIMP-neutron effective coupling [GeV^-2]" ;;
    cout "  GpSD  Spin-dependent WIMP-proton effective coupling [GeV^-2]" ;;
    cout "  GnSD  Spin-dependent WIMP-neutron effective coupling [GeV^-2]"
  else if (type =? TYPE_MFA)%Z then
    cout "  M     WIMP mass [GeV]" ;;
    cout "  fp    Spin-independent WIMP-proton effective coupling [GeV^-2]" ;;
    cout "  fn    Spin-independent WIMP-neutron effective coupling [GeV^-2]" ;;
    cout "  ap    Spin-dependent WIMP-proton effective coupling [unitless]" ;;
    cout "  an    Spin-dependent WIMP-neutron effective coupling [unitless]"
  else ret tt.

(** ** Closed forms of the parts of [main] *)

(** The functions below are written for the statements: what a part of
    the program leaves in the state and in the trace, as a function of
    its input.  The lemmas that follow prove that the program computes
    them. *)

Definition is_help (a : string) : bool := String.eqb a "--help".

(** The arguments no branch of [parse_arg] recognises. *)
Definition unknown (a : string) : bool :=
  negb (String.eqb a "--mG" || String.eqb a "--mfa" || String.eqb a "--help").

(** The arguments in front of the first [--help]. *)
Fixpoint until_help (args : list string) : list string :=
  match args with
  | [] => []
  | a :: r => if is_help a then [] else a :: until_help r
  end.

(** The value of [type] after the mode flags of [args], from [t]. *)
Fixpoint mode_after (t : Z) (args : list string) : Z :=
  match args with
  | [] => t
  | a :: r =>
      mode_after (if String.eqb a "--mG" then TYPE_MG
                  else if String.eqb a "--mfa" then TYPE_MFA
                  else t) r
  end.

Definition warnings (args : list string) : list Event :=
  map (fun a => Cout (warning a)) (filter unknown args).

Definition usage_events : list Event :=
  [Cout "Usage:";
   Cout "  ./DDCalc_exampleC [--mG|--mfa]";
   Cout "where the optional flag specifies the form in which the WIMP-";
   Cout "nucleon couplings will be provided (default: --mfa)."].

Definition with_type (t : Z) (s : State) : State :=
  mkState t (st_lib s) (st_cin s).

Definition prompt_events (type : Z) : list Event :=
  [Cout "";
   Cout "------------------------------------------------------------"]
  ++ (if (type =? TYPE_MG)%Z then [Cout "Enter values <M GpSI GnSI GpSD GnSD>:"]
      else if (type =? TYPE_MFA)%Z then [Cout "Enter values <M fp fn ap an>:"]
      else []).

(** The state after [getline]: one line less on the input, if any. *)
Definition pop (s : State) : State :=
  mkState (st_type s) (st_lib s) (tl (st_cin s)).

(** The library after the setter chosen by [type], after the two getters
    and after the four rate calculations. *)
Definition lib_set (h : Handles) (type : Z) (cs : CouplingSet)
  (l : lib_state) : lib_state :=
  if (type =? TYPE_MG)%Z then SetWIMP_mG (WIMP h) cs l
  else if (type =? TYPE_MFA)%Z then SetWIMP_mfa (WIMP h) cs l
  else l.

Definition lib_get (h : Handles) (l : lib_state) : lib_state :=
  snd (GetWIMP_mG (WIMP h) (snd (GetWIMP_mfa (WIMP h) l))).

Definition lib_rates (h : Handles) (l : lib_state) : lib_state :=
  CalcRates (SIMPLE h) (WIMP h) (Halo h)
    (CalcRates (SCDMS h) (WIMP h) (Halo h)
       (CalcRates (LUX h) (WIMP h) (Halo h)
          (CalcRates (XENON h) (WIMP h) (Halo h) l))).

Definition setter_events (h : Handles) (type : Z) (cs : CouplingSet)
  : list Event :=
  if (type =? TYPE_MG)%Z then [Call_SetWIMP_mG (WIMP h) cs]
  else if (type =? TYPE_MFA)%Z then [Call_SetWIMP_mfa (WIMP h) cs]
  else [].

Definition getter_events (h : Handles) : list Event :=
  [Call_GetWIMP_mfa (WIMP h); Call_GetWIMP_mG (WIMP h)].

Definition rates_events (h : Handles) : list Event :=
  [Call_CalcRates (XENON h) (WIMP h) (Halo h);
   Call_CalcRates (LUX h) (WIMP h) (Halo h);
   Call_CalcRates (SCDMS h) (WIMP h) (Halo h);
   Call_CalcRates (SIMPLE h) (WIMP h) (Halo h)].

(** What [print_wimp] and [print_table] write. *)
Definition wimp_events (mfa mG : CouplingSet) : list Event :=
  [Printf "%s %- #12.5g\n" [PStr "WIMP mass [GeV]     "; PDbl (cs_M mG)];
   Cout "";
   Printf "%-28s %11s %11s %11s %11s\n"
     [PStr "WIMP-nucleon couplings"; PStr " proton-SI "; PStr " neutron-SI";
      PStr " proton-SD "; PStr " neutron-SD"];
   Printf "%-28s %- #11.5g %- #11.5g %- #11.5g %- #11.5g\n"
     [PStr "  G [GeV^-2]"; PDbl (cs_pSI mG); PDbl (cs_nSI mG);
      PDbl (cs_pSD mG); PDbl (cs_nSD mG)];
   Printf "%-28s %- #11.5g %- #11.5g %- #11.5g %- #11.5g\n"
     [PStr "  f & a [GeV^-2,unitless]"; PDbl (cs_pSI mfa); PDbl (cs_nSI mfa);
      PDbl (cs_pSD mfa); PDbl (cs_nSD mfa)];
   Cout ""].

Definition table_events (h : Handles) (l : lib_state) : list Event :=
  [Printf "%-20s  %11s  %11s  %11s  %11s\n"
     [PStr ""; PStr " XENON 2012"; PStr " LUX 2013  "; PStr "SuCDMS 2014";
      PStr "SIMPLE 2014"];
   Printf "%-20s  % 6i       % 6i       % 6i       % 6i       \n"
     [PStr "Observed events     "; PInt (Events (XENON h) l);
      PInt (Events (LUX h) l); PInt (Events (SCDMS h) l);
      PInt (Events (SIMPLE h) l)];
   Printf fmt_row (PStr "Expected background " :: row h Background l);
   Printf fmt_row (PStr "Expected signal     " :: row h Signal l);
   Printf fmt_row (PStr "Log-likelihood      " :: row h LogLikelihood l);
   Printf fmt_row (PStr "Rescaling for 90% CL" :: row h ScaleToPValue l);
   Cout " * This is the factor by which the cross section must be rescaled to give the desired p-value"].

(** The library at the end of an iteration and the events of the
    iteration, from the mode, the couplings and the library before it. *)
Definition iter_lib (h : Handles) (type : Z) (cs : CouplingSet)
  (l : lib_state) : lib_state :=
  lib_rates h (lib_get h (lib_set h type cs l)).

Definition iter_events (h : Handles) (type : Z) (cs : CouplingSet)
  (l : lib_state) : list Event :=
  let l1 := lib_set h type cs l in
  let mfa := fst (GetWIMP_mfa (WIMP h) l1) in
  let mG := fst (GetWIMP_mG (WIMP h) (snd (GetWIMP_mfa (WIMP h) l1))) in
  Cout "" :: setter_events h type cs ++ getter_events h
  ++ wimp_events mfa mG ++ rates_events h
  ++ table_events h (iter_lib h type cs l).

(** The loop by recursion on the lines of the input: the library and the
    input left at the end, and the events. *)
Fixpoint loop_run (h : Handles) (type : Z) (l : lib_state)
  (cin : list text) : lib_state * list text * list Event :=
  match cin with
  | [] => (l, [], prompt_events type)
  | line :: rest =>
      match parse_line line with
      | None => (l, rest, prompt_events type)
      | Some cs =>
          let '(l', c', ev) := loop_run h type (iter_lib h type cs l) rest in
          (l', c', prompt_events type ++ iter_events h type cs l ++ ev)
      end
  end.

Definition loop_lib (h : Handles) (type : Z) (l : lib_state)
  (cin : list text) : lib_state := fst (fst (loop_run h type l cin)).

Definition loop_cin (h : Handles) (type : Z) (l : lib_state)
  (cin : list text) : list text := snd (fst (loop_run h type l cin)).

Definition loop_events (h : Handles) (type : Z) (l : lib_state)
  (cin : list text) : list Event := snd (loop_run h type l cin).

Definition init_handles (l0 : lib_state) : Handles * lib_state :=
  let '(halo, l1) := InitHalo l0 in
  let '(wimp, l2) := InitWIMP l1 in
  let '(xenon, l3) := XENON100_2012_Init l2 in
  let '(lux, l4) := LUX_2013_Init l3 in
  let '(scdms, l5) := SuperCDMS_2014_Init l4 in
  let '(simple, l6) := SIMPLE_2014_Init l5 in
  (mkHandles halo wimp xenon lux scdms simple, l6).

Definition init_events (h : Handles) : list Event :=
  [Call_InitHalo (Halo h); Call_InitWIMP (WIMP h);
   Call_XENON100_2012_Init (XENON h); Call_LUX_2013_Init (LUX h);
   Call_SuperCDMS_2014_Init (SCDMS h); Call_SIMPLE_2014_Init (SIMPLE h)].

(** ** Vocabulary of the statements *)

(** A line on which [GetWIMPParams] returns [true]. *)
Definition accepted (line : text) : Prop := parse_line line <> None.

(** The events of the loop: output, and calls on the handles of [h]. *)
Definition loop_event (h : Handles) (e : Event) : Prop :=
  match e with
  | Cout _ | Printf _ _ => True
  | Call_SetWIMP_mG w _ | Call_SetWIMP_mfa w _
  | Call_GetWIMP_mfa w | Call_GetWIMP_mG w => w = WIMP h
  | Call_CalcRates d w hl =>
      w = WIMP h /\ hl = Halo h
      /\ (d = XENON h \/ d = LUX h \/ d = SCDMS h \/ d = SIMPLE h)
  | _ => False
  end.

(** [reads n s]: [n] extractions in a row, all successful; the values and
    the text left in the buffer. *)
Fixpoint reads (n : nat) (s : text) : option (list double * text) :=
  match n with
  | O => Some ([], s)
  | S k =>
      match extract s with
      | None => None
      | Some (v, r) =>
          match reads k r with
          | None => None
          | Some (vs, r') => Some (v :: vs, r')
          end
      end
  end.

Definition after_report (h : Handles) (s : State) (cs : CouplingSet)
  (rest : list text) : State :=
  mkState (st_type s) (iter_lib h (st_type s) cs (st_lib s)) rest.

(** A token that is a number from its first to its last character. *)
Definition numeric_token (t : text) (v : double) : Prop :=
  exists xtrc, M_extract_float t = (xtrc, []) /\ convert_to_v xtrc = Some v.

(** Tokens with one blank between them. *)
Fixpoint join_fields (ts : list text) : text :=
  match ts with
  | [] => []
  | [t] => t
  | t :: r => t ++ " "%char :: join_fields r
  end.








Definition blank (line : text) : Prop := skipws line = [].

(** Fewer than two numeric fields: the first or the second read fails. *)
Definition fewer_than_two (line : text) : Prop :=
  extract line = None
  \/ exists M s1, extract line = Some (M, s1) /\ extract s1 = None.

(** What ends the loop: the end of the stream, a blank line, or a line
    with fewer than two numeric fields. *)
Definition ends_input (tail : list text) : Prop :=
  tail = []
  \/ exists bad rest, tail = bad :: rest /\ (blank bad \/ fewer_than_two bad).

(** The cascade of defaults on the values read from a line. *)
Definition fill_defaults (vs : list double) : option CouplingSet :=
  match vs with
  | M :: x :: r =>
      match r with
      | [] => Some (mkCS M x x dzero dzero)
      | [y] => Some (mkCS M x y dzero dzero)
      | [y; z] => Some (mkCS M x y z z)
      | y :: z :: u :: _ => Some (mkCS M x y z u)
      end
  | _ => None
  end.

(** Kinds of events, for counting. *)
Definition is_CalcRates (e : Event) : bool :=
  match e with Call_CalcRates _ _ _ => true | _ => false end.

Definition is_SetWIMP_mG (e : Event) : bool :=
  match e with Call_SetWIMP_mG _ _ => true | _ => false end.

Definition is_SetWIMP_mfa (e : Event) : bool :=
  match e with Call_SetWIMP_mfa _ _ => true | _ => false end.

Definition is_GetWIMP (e : Event) : bool :=
  match e with
  | Call_GetWIMP_mfa _ | Call_GetWIMP_mG _ => true
  | _ => false
  end.

Definition is_FreeAll (e : Event) : bool :=
  match e with Call_FreeAll => true | _ => false end.

Definition count (p : Event -> bool) (evs : list Event) : nat :=
  List.length (filter p evs).

(** The arguments that some branch of [parse_arg] recognises. *)
Definition known (a : string) : bool := negb (unknown a).

(** The first line of text that [WriteDescription] writes. *)
Definition description_line : string :=
  "Enter WIMP parameters below.  Only the first two are necessary.".

(** An event that is not the first line of text of [WriteDescription]. *)
Definition not_description (e : Event) : Prop := e <> Cout description_line.

(** * Lemmas and theorems *)

(** ** Running the monad *)

Lemma bind_return {A B} (m : Prog A) (k : A -> Prog B) s a s' ev :
  m s = mkResult (Return a) s' ev ->
  (x <- m ;; k x) s =
  mkResult (outcome (k a s')) (final (k a s')) (ev ++ events (k a s')).
Proof. intros H. unfold bind. rewrite H. reflexivity. Qed.

Lemma bind_exit {A B} (m : Prog A) (k : A -> Prog B) s c s' ev :
  m s = mkResult (Exit c) s' ev ->
  (x <- m ;; k x) s = mkResult (Exit c) s' ev.
Proof. intros H. unfold bind. rewrite H. reflexivity. Qed.

Lemma result_eta {A} (r : Result A) :
  mkResult (outcome r) (final r) (events r) = r.
Proof. destruct r; reflexivity. Qed.

Lemma state_eta (s : State) : mkState (st_type s) (st_lib s) (st_cin s) = s.
Proof. destruct s; reflexivity. Qed.

(** ** The command line *)

Lemma parse_arg_mG (s : State) :
  parse_arg "--mG" s = mkResult (Return tt) (with_type TYPE_MG s) [].
Proof. reflexivity. Qed.

Lemma parse_arg_mfa (s : State) :
  parse_arg "--mfa" s = mkResult (Return tt) (with_type TYPE_MFA s) [].
Proof. reflexivity. Qed.

Lemma parse_arg_help (s : State) :
  parse_arg "--help" s = mkResult (Exit 0%Z) s usage_events.
Proof. reflexivity. Qed.

Lemma parse_arg_unknown (a : string) (s : State) :
  unknown a = true ->
  parse_arg a s = mkResult (Return tt) s [Cout (warning a)].
Proof.
  unfold unknown, parse_arg. intros H.
  apply negb_true_iff in H. apply orb_false_iff in H. destruct H as [H Hh].
  apply orb_false_iff in H. destruct H as [HG Hf].
  rewrite HG, Hf, Hh. reflexivity.
Qed.

Lemma unknown_cases (a : string) :
  {a = "--mG"} + {a = "--mfa"} + {a = "--help"} + {unknown a = true}.
Proof.
  unfold unknown.
  destruct (String.eqb a "--mG") eqn:EG;
    [left; left; left; now apply String.eqb_eq|].
  destruct (String.eqb a "--mfa") eqn:Ef;
    [left; left; right; now apply String.eqb_eq|].
  destruct (String.eqb a "--help") eqn:Eh;
    [left; right; now apply String.eqb_eq|].
  right. reflexivity.
Qed.

Lemma unknown_mode (a : string) (t : Z) (r : list string) :
  unknown a = true -> mode_after t (a :: r) = mode_after t r.
Proof.
  unfold unknown. intros H. cbn [mode_after].
  destruct (String.eqb a "--mG"); [discriminate|].
  destruct (String.eqb a "--mfa"); [discriminate|]. reflexivity.
Qed.

Lemma unknown_not_help (a : string) : unknown a = true -> is_help a = false.
Proof.
  unfold unknown, is_help. intros H.
  destruct (String.eqb a "--help"); [|reflexivity].
  rewrite !orb_true_r in H. discriminate.
Qed.

Lemma parse_args_run (args : list string) (s : State) :
  parse_args args s =
  mkResult (if existsb is_help args then Exit 0%Z else Return tt)
           (with_type (mode_after (st_type s) (until_help args)) s)
           (warnings (until_help args)
            ++ if existsb is_help args then usage_events else []).
Proof.
  revert s. induction args as [|a r IH]; intros s.
  - cbn. unfold with_type. rewrite state_eta. reflexivity.
  - change (parse_args (a :: r) s) with ((parse_arg a ;; parse_args r) s).
    cbn [existsb until_help].
    destruct (unknown_cases a) as [[[-> | ->] | ->] | Hu].
    + rewrite (bind_return _ _ _ _ _ _ (parse_arg_mG s)), IH.
      change (is_help "--mG") with false. cbn [orb].
      destruct (existsb is_help r); reflexivity.
    + rewrite (bind_return _ _ _ _ _ _ (parse_arg_mfa s)), IH.
      change (is_help "--mfa") with false. cbn [orb].
      destruct (existsb is_help r); reflexivity.
    + rewrite (bind_exit _ _ _ _ _ _ (parse_arg_help s)).
      change (is_help "--help") with true. cbn [orb mode_after].
      unfold with_type. rewrite state_eta. reflexivity.
    + rewrite (bind_return _ _ _ _ _ _ (parse_arg_unknown a s Hu)), IH.
      rewrite (unknown_not_help a Hu). cbn [orb].
      rewrite (unknown_mode a _ _ Hu).
      unfold warnings. cbn [filter]. rewrite Hu. cbn [map].
      destruct (existsb is_help r); reflexivity.
Qed.

Lemma parse_command_line_run (argv : list string) (s : State) :
  parse_command_line argv s =
  mkResult (if existsb is_help (tl argv) then Exit 0%Z else Return tt)
           (with_type (mode_after TYPE_MFA (until_help (tl argv))) s)
           (warnings (until_help (tl argv))
            ++ if existsb is_help (tl argv) then usage_events else []).
Proof.
  unfold parse_command_line.
  rewrite (bind_return _ _ s tt (with_type TYPE_MFA s) []) by reflexivity.
  rewrite parse_args_run. reflexivity.
Qed.

Lemma existsb_is_help (args : list string) :
  existsb is_help args = true <-> In "--help" args.
Proof.
  rewrite existsb_exists. unfold is_help. split.
  - intros (x & Hx & E). apply String.eqb_eq in E. now subst.
  - intros H. exists "--help". split; [assumption|reflexivity].
Qed.

Lemma no_help (args : list string) :
  ~ In "--help" args -> existsb is_help args = false.
Proof.
  intros H. destruct (existsb is_help args) eqn:E; [|reflexivity].
  apply existsb_is_help in E. contradiction.
Qed.

Lemma until_help_no_help (args : list string) :
  ~ In "--help" args -> until_help args = args.
Proof.
  induction args as [|a r IH]; intros H; [reflexivity|].
  cbn [until_help]. unfold is_help.
  destruct (String.eqb a "--help") eqn:E.
  - apply String.eqb_eq in E. subst. exfalso. apply H. now left.
  - f_equal. apply IH. intros Hr. apply H. now right.
Qed.

Lemma until_help_app (pre post : list string) :
  ~ In "--help" pre -> until_help (pre ++ post) = pre ++ until_help post.
Proof.
  induction pre as [|a r IH]; intros H; [reflexivity|].
  cbn [app until_help]. unfold is_help.
  destruct (String.eqb a "--help") eqn:E.
  - apply String.eqb_eq in E. subst. exfalso. apply H. now left.
  - f_equal. apply IH. intros Hr. apply H. now right.
Qed.

Lemma until_help_incl (args : list string) (x : string) :
  In x (until_help args) -> In x args.
Proof.
  induction args as [|a r IH]; [intros []|].
  cbn [until_help]. destruct (is_help a); [intros []|].
  intros [->|H]; [now left|right; auto].
Qed.

Lemma mode_after_app (t : Z) (a b : list string) :
  mode_after t (a ++ b) = mode_after (mode_after t a) b.
Proof.
  revert t. induction a as [|x a IH]; intros t; [reflexivity|].
  cbn [app mode_after]. apply IH.
Qed.

Lemma mode_after_no_flag (t : Z) (args : list string) :
  ~ In "--mG" args -> ~ In "--mfa" args -> mode_after t args = t.
Proof.
  induction args as [|a r IH]; intros HG Hf; [reflexivity|].
  cbn [mode_after].
  destruct (String.eqb a "--mG") eqn:EG.
  { apply String.eqb_eq in EG. subst. exfalso. apply HG. now left. }
  destruct (String.eqb a "--mfa") eqn:Ef.
  { apply String.eqb_eq in Ef. subst. exfalso. apply Hf. now left. }
  apply IH; intros H; [apply HG|apply Hf]; now right.
Qed.

Lemma mode_after_no_mfa (t : Z) (args : list string) :
  ~ In "--mfa" args ->
  mode_after t args = if existsb (String.eqb "--mG") args then TYPE_MG else t.
Proof.
  revert t. induction args as [|a r IH]; intros t Hf; [reflexivity|].
  cbn [mode_after existsb]. rewrite (String.eqb_sym "--mG" a).
  destruct (String.eqb a "--mG") eqn:EG.
  - cbn [orb]. rewrite IH by (intros H; apply Hf; now right).
    destruct (existsb _ r); reflexivity.
  - destruct (String.eqb a "--mfa") eqn:Ef.
    { apply String.eqb_eq in Ef. subst. exfalso. apply Hf. now left. }
    cbn [orb]. apply IH. intros H. apply Hf. now right.
Qed.

Lemma mode_after_valid (t : Z) (args : list string) :
  t = TYPE_MG \/ t = TYPE_MFA ->
  mode_after t args = TYPE_MG \/ mode_after t args = TYPE_MFA.
Proof.
  revert t. induction args as [|a r IH]; intros t H; [exact H|].
  cbn [mode_after]. apply IH.
  destruct (String.eqb a "--mG"); [now left|].
  destruct (String.eqb a "--mfa"); [now right|exact H].
Qed.

(** ** The extractor and white space *)

Lemma space_not_lexed (w : ascii) :
  is_space w = true ->
  is_digit w = false /\ is_sign w = false /\ is_point w = false
  /\ is_exp w = false /\ Ascii.eqb w "0" = false.
Proof.
  destruct w as [[] [] [] [] [] [] [] []]; cbn; intros H;
    try discriminate H; repeat split; reflexivity.
Qed.

Lemma skipws_app (s t : text) :
  skipws s <> [] -> skipws (s ++ t) = skipws s ++ t.
Proof.
  induction s as [|c r IH]; cbn [skipws app]; intros H.
  - contradiction.
  - destruct (is_space c); [apply IH; assumption|reflexivity].
Qed.

Lemma skipws_spaces (ws s : text) :
  forallb is_space ws = true -> skipws (ws ++ s) = skipws s.
Proof.
  induction ws as [|c r IH]; cbn [forallb app skipws]; intros H.
  - reflexivity.
  - apply andb_true_iff in H. destruct H as [Hc Hr]. rewrite Hc. auto.
Qed.

Lemma skipws_blank_app (s t : text) :
  skipws s = [] -> skipws (s ++ t) = skipws t.
Proof.
  induction s as [|c r IH]; cbn [skipws app]; intros H; [reflexivity|].
  destruct (is_space c); [apply IH; assumption|discriminate].
Qed.

Lemma skipws_all_spaces (ws : text) :
  forallb is_space ws = true -> skipws ws = [].
Proof.
  intros H. rewrite <- (app_nil_r ws). rewrite (skipws_spaces ws [] H).
  reflexivity.
Qed.

Lemma scan_zeros_app (s : text) (w : ascii) (x : text) :
  is_space w = true ->
  scan_zeros (s ++ w :: x) = scan_zeros s ++ w :: x
  /\ leading_zero (s ++ w :: x) = leading_zero s.
Proof.
  intros Hw. destruct (space_not_lexed w Hw) as (_ & _ & _ & _ & H0).
  split.
  - induction s as [|c r IH]; cbn [app scan_zeros].
    + rewrite H0. reflexivity.
    + destruct (Ascii.eqb c "0"); [assumption|reflexivity].
  - destruct s; cbn; [assumption|reflexivity].
Qed.

Lemma scan_body_app (w : ascii) (x : text) :
  is_space w = true ->
  forall (n : nat) (s : text) (fm fd fs : bool),
    (List.length s <= n)%nat ->
    scan_body fm fd fs (s ++ w :: x) =
    (fst (scan_body fm fd fs s), snd (scan_body fm fd fs s) ++ w :: x).
Proof.
  intros Hw.
  destruct (space_not_lexed w Hw) as (Hd & Hs & Hp & He & _).
  induction n as [|n IH]; intros s fm fd fs Hn.
  - destruct s; [|cbn in Hn; lia].
    cbn. rewrite Hd, Hp, He. reflexivity.
  - destruct s as [|c r].
    + cbn. rewrite Hd, Hp, He. reflexivity.
    + cbn [List.length] in Hn. cbn [app scan_body].
      destruct (is_digit c).
      { rewrite IH by lia. destruct (scan_body true fd fs r). reflexivity. }
      destruct (is_point c && negb fd && negb fs).
      { rewrite IH by lia. destruct (scan_body fm true fs r). reflexivity. }
      destruct (is_exp c && negb fs && fm); [|reflexivity].
      destruct r as [|c2 r2].
      * cbn [app]. rewrite Hs. cbn [scan_body]. rewrite Hd, Hp, He.
        reflexivity.
      * cbn [app]. destruct (is_sign c2).
        { cbn [List.length] in Hn. rewrite IH by lia.
          destruct (scan_body fm fd true r2). reflexivity. }
        change (c2 :: r2 ++ w :: x) with ((c2 :: r2) ++ w :: x).
        rewrite IH by lia.
        destruct (scan_body fm fd true (c2 :: r2)). reflexivity.
Qed.

Lemma M_extract_float_app (s : text) (w : ascii) (x : text) :
  is_space w = true ->
  M_extract_float (s ++ w :: x) =
  (fst (M_extract_float s), snd (M_extract_float s) ++ w :: x).
Proof.
  intros Hw. unfold M_extract_float.
  destruct (space_not_lexed w Hw) as (_ & Hs & _).
  assert (Hsign : scan_sign (s ++ w :: x) =
                  (fst (scan_sign s), snd (scan_sign s) ++ w :: x)).
  { destruct s as [|c r]; cbn [app scan_sign].
    - rewrite Hs. reflexivity.
    - destruct (is_sign c); reflexivity. }
  rewrite Hsign. destruct (scan_sign s) as [sg s1]. cbn [fst snd].
  destruct (scan_zeros_app s1 w x Hw) as [Hz Hl]. rewrite Hz, Hl.
  rewrite (scan_body_app w x Hw (List.length (scan_zeros s1))) by lia.
  destruct (scan_body (leading_zero s1) false false (scan_zeros s1)).
  reflexivity.
Qed.

Lemma extract_blank (s : text) : skipws s = [] -> extract s = None.
Proof. unfold extract. intros ->. reflexivity. Qed.

(** What an extraction reads is settled by the text in front of the next
    white space. *)
Lemma extract_app (s : text) (v : double) (rest : text) (w : ascii) (x : text) :
  extract s = Some (v, rest) ->
  is_space w = true ->
  extract (s ++ w :: x) = Some (v, rest ++ w :: x).
Proof.
  intros H Hw.
  assert (Hne : skipws s <> []).
  { intros E. rewrite (extract_blank s E) in H. discriminate. }
  unfold extract in *. rewrite (skipws_app s _ Hne).
  rewrite (M_extract_float_app _ w x Hw).
  destruct (M_extract_float (skipws s)) as [xtrc r]. cbn [fst snd].
  destruct (convert_to_v xtrc); [|discriminate].
  injection H as -> ->. reflexivity.
Qed.

(** Leading white space is skipped. *)
Lemma extract_spaces (ws s : text) :
  forallb is_space ws = true -> extract (ws ++ s) = extract s.
Proof. intros H. unfold extract. rewrite (skipws_spaces ws s H). reflexivity. Qed.

(** ** The input loop *)

Lemma prompt_run (type : Z) (s : State) :
  prompt type s = mkResult (Return tt) s (prompt_events type).
Proof.
  unfold prompt, prompt_events.
  destruct (type =? TYPE_MG)%Z; [reflexivity|].
  destruct (type =? TYPE_MFA)%Z; reflexivity.
Qed.

Lemma GetWIMPParams_run (type : Z) (s : State) :
  GetWIMPParams type s =
  mkResult (Return (parse_line (hd [] (st_cin s)))) (pop s)
           (prompt_events type).
Proof.
  unfold GetWIMPParams.
  rewrite (bind_return _ _ _ _ _ _ (prompt_run type s)).
  unfold bind, getline, pop, ret.
  destruct s as [t l [|line rest]]; cbn; rewrite app_nil_r; reflexivity.
Qed.

Lemma print_wimp_run (mfa mG : CouplingSet) (s : State) :
  print_wimp mfa mG s = mkResult (Return tt) s (wimp_events mfa mG).
Proof. reflexivity. Qed.

Lemma print_table_run (h : Handles) (s : State) :
  print_table h s = mkResult (Return tt) s (table_events h (st_lib s)).
Proof. reflexivity. Qed.

Lemma lib_call_run {A} (f : lib_state -> A * lib_state) (e : A -> Event)
  (s : State) :
  lib_call f e s =
  mkResult (Return (fst (f (st_lib s))))
           (mkState (st_type s) (snd (f (st_lib s))) (st_cin s))
           [e (fst (f (st_lib s)))].
Proof. unfold lib_call. destruct (f (st_lib s)). reflexivity. Qed.

Lemma set_wimp_run (h : Handles) (type : Z) (cs : CouplingSet) (s : State) :
  set_wimp h type cs s =
  mkResult (Return tt)
           (mkState (st_type s) (lib_set h type cs (st_lib s)) (st_cin s))
           (setter_events h type cs).
Proof.
  unfold set_wimp, lib_set, setter_events.
  destruct (type =? TYPE_MG)%Z; [reflexivity|].
  destruct (type =? TYPE_MFA)%Z; [reflexivity|].
  unfold ret. rewrite state_eta. reflexivity.
Qed.

Lemma calc_rates_run (h : Handles) (s : State) :
  calc_rates h s =
  mkResult (Return tt)
           (mkState (st_type s) (lib_rates h (st_lib s)) (st_cin s))
           (rates_events h).
Proof. reflexivity. Qed.

Lemma update_and_report_run (h : Handles) (cs : CouplingSet) (s : State) :
  update_and_report h cs s =
  mkResult (Return tt)
           (mkState (st_type s) (iter_lib h (st_type s) cs (st_lib s))
                    (st_cin s))
           (iter_events h (st_type s) cs (st_lib s)).
Proof.
  unfold update_and_report.
  rewrite (bind_return _ _ s tt s [Cout ""]) by reflexivity.
  rewrite (bind_return _ _ s (st_type s) s []) by reflexivity.
  rewrite (bind_return _ _ _ _ _ _ (set_wimp_run h (st_type s) cs s)).
  unfold iter_events, iter_lib, lib_get.
  rewrite (bind_return _ _ _ _ _ _ (lib_call_run _ _ _)).
  rewrite (bind_return _ _ _ _ _ _ (lib_call_run _ _ _)).
  cbn [st_lib st_type st_cin].
  set (l1 := lib_set h (st_type s) cs (st_lib s)).
  set (mfa := fst (GetWIMP_mfa (WIMP h) l1)).
  set (l2 := snd (GetWIMP_mfa (WIMP h) l1)).
  set (mG := fst (GetWIMP_mG (WIMP h) l2)).
  set (l3 := snd (GetWIMP_mG (WIMP h) l2)).
  rewrite (bind_return _ _ _ _ _ _ (print_wimp_run mfa mG _)).
  rewrite (bind_return _ _ _ _ _ _ (calc_rates_run h _)).
  rewrite print_table_run. cbn [outcome final events st_lib st_type st_cin].
  unfold getter_events. cbn [app]. reflexivity.
Qed.

Lemma input_loop_step (n : nat) (h : Handles) (s : State) :
  input_loop (S n) h s =
  match parse_line (hd [] (st_cin s)) with
  | None => mkResult (Return tt) (pop s) (prompt_events (st_type s))
  | Some cs =>
      let s1 := mkState (st_type s) (iter_lib h (st_type s) cs (st_lib s))
                        (tl (st_cin s)) in
      let r := input_loop n h s1 in
      mkResult (outcome r) (final r)
               (prompt_events (st_type s)
                ++ iter_events h (st_type s) cs (st_lib s) ++ events r)
  end.
Proof.
  cbn [input_loop].
  rewrite (bind_return _ _ s (st_type s) s []) by reflexivity.
  rewrite (bind_return _ _ _ _ _ _ (GetWIMPParams_run (st_type s) s)).
  cbn [app]. destruct (parse_line (hd [] (st_cin s))) as [cs|].
  - rewrite (bind_return _ _ _ _ _ _ (update_and_report_run h cs (pop s))).
    cbn [pop st_type st_lib st_cin outcome final events]. reflexivity.
  - cbn [ret outcome final events]. rewrite app_nil_r. reflexivity.
Qed.

(** With more fuel than lines the loop ends by itself. *)
Lemma input_loop_run (fuel : nat) (h : Handles) (s : State) :
  (List.length (st_cin s) < fuel)%nat ->
  input_loop fuel h s =
  mkResult (Return tt)
           (mkState (st_type s)
                    (loop_lib h (st_type s) (st_lib s) (st_cin s))
                    (loop_cin h (st_type s) (st_lib s) (st_cin s)))
           (loop_events h (st_type s) (st_lib s) (st_cin s)).
Proof.
  unfold loop_lib, loop_cin, loop_events.
  revert s. induction fuel as [|n IH]; intros s Hf; [lia|].
  rewrite input_loop_step. destruct s as [t l cin].
  cbn [st_type st_lib st_cin] in *.
  destruct cin as [|line rest]; cbn [hd tl loop_run].
  - change (parse_line []) with (@None CouplingSet). reflexivity.
  - destruct (parse_line line) as [cs|]; [|reflexivity].
    cbn [List.length] in Hf. cbv zeta.
    rewrite IH by (cbn [st_cin]; lia). cbn [st_type st_lib st_cin].
    destruct (loop_run h t (iter_lib h t cs l) rest) as [[l' c'] ev].
    reflexivity.
Qed.

(** ** [main] *)

Lemma init_session_run (s : State) :
  init_session s =
  mkResult (Return (fst (init_handles (st_lib s))))
           (mkState (st_type s) (snd (init_handles (st_lib s))) (st_cin s))
           (init_events (fst (init_handles (st_lib s)))).
Proof.
  unfold init_session, init_handles.
  do 6 rewrite (bind_return _ _ _ _ _ _ (lib_call_run _ _ _)).
  cbn [st_type st_lib st_cin ret outcome final events].
  destruct (InitHalo (st_lib s)) as [halo l1]. cbn [fst snd].
  destruct (InitWIMP l1) as [wimp l2]. cbn [fst snd].
  destruct (XENON100_2012_Init l2) as [xenon l3]. cbn [fst snd].
  destruct (LUX_2013_Init l3) as [lux l4]. cbn [fst snd].
  destruct (SuperCDMS_2014_Init l4) as [scdms l5]. cbn [fst snd].
  destruct (SIMPLE_2014_Init l5) as [simple l6]. cbn [fst snd].
  reflexivity.
Qed.

(** A run without [--help], with enough fuel for the input. *)
Lemma run_no_help (fuel : nat) (argv : list string) (cin : list text)
  (l0 : lib_state) :
  ~ In "--help" (tl argv) ->
  (List.length cin < fuel)%nat ->
  run fuel argv cin l0 =
  let t := mode_after TYPE_MFA (tl argv) in
  let h := fst (init_handles l0) in
  let l1 := snd (init_handles l0) in
  mkResult (Return 0%Z)
           (mkState t (FreeAll (loop_lib h t l1 cin)) (loop_cin h t l1 cin))
           (warnings (tl argv) ++ init_events h
            ++ loop_events h t l1 cin ++ [Call_FreeAll]).
Proof.
  intros Hh Hf. unfold run, main.
  pose proof (parse_command_line_run argv (mkState 0%Z l0 cin)) as Hp.
  rewrite (no_help _ Hh), (until_help_no_help _ Hh), app_nil_r in Hp.
  rewrite (bind_return _ _ _ _ _ _ Hp).
  rewrite (bind_return _ _ _ _ _ _ (init_session_run _)).
  cbn [with_type st_type st_lib st_cin]. cbv zeta.
  rewrite (bind_return _ _ _ _ _ _
             (input_loop_run fuel _ (mkState _ _ cin) Hf)).
  cbn [st_type st_lib st_cin].
  cbn [outcome final events bind lib_do ret st_type st_lib st_cin].
  rewrite app_nil_r. reflexivity.
Qed.

(** A run with [--help] among the arguments. *)
Lemma run_help (fuel : nat) (argv : list string) (cin : list text)
  (l0 : lib_state) :
  In "--help" (tl argv) ->
  run fuel argv cin l0 =
  mkResult (Exit 0%Z)
           (mkState (mode_after TYPE_MFA (until_help (tl argv))) l0 cin)
           (warnings (until_help (tl argv)) ++ usage_events).
Proof.
  intros Hh. unfold run, main.
  pose proof (parse_command_line_run argv (mkState 0%Z l0 cin)) as Hp.
  apply existsb_is_help in Hh. rewrite Hh in Hp.
  rewrite (bind_exit _ _ _ _ _ _ Hp). reflexivity.
Qed.

(** With more fuel than input lines a run never stops for lack of fuel. *)
Lemma run_total (fuel : nat) (argv : list string) (cin : list text)
  (l0 : lib_state) :
  (List.length cin < fuel)%nat ->
  outcome (run fuel argv cin l0) = Return 0%Z
  \/ outcome (run fuel argv cin l0) = Exit 0%Z.
Proof.
  intros Hf. destruct (in_dec string_dec "--help" (tl argv)) as [Hh|Hh].
  - right. rewrite (run_help fuel argv cin l0 Hh). reflexivity.
  - left. rewrite (run_no_help fuel argv cin l0 Hh Hf). reflexivity.
Qed.

(** ** Properties of the loop *)

(** Lines after the first line that is refused are not read. *)
Lemma loop_run_stop (h : Handles) (t : Z) (good tail : list text) :
  Forall accepted good ->
  parse_line (hd [] tail) = None ->
  forall l,
    loop_run h t l (good ++ tail) =
    (loop_lib h t l good, tl tail, loop_events h t l good).
Proof.
  unfold loop_lib, loop_events.
  intros Hg Ht. induction Hg as [|line good Hl _ IH]; intros l.
  - cbn [app loop_run fst snd]. destruct tail as [|bad rest]; [reflexivity|].
    cbn [hd] in Ht. cbn [loop_run tl]. rewrite Ht. reflexivity.
  - cbn [app loop_run]. unfold accepted in Hl.
    destruct (parse_line line) as [cs|]; [|contradiction].
    rewrite IH.
    destruct (loop_run h t (iter_lib h t cs l) good) as [[l' c'] ev].
    reflexivity.
Qed.


Lemma prompt_events_loop (h : Handles) (t : Z) :
  Forall (loop_event h) (prompt_events t).
Proof.
  unfold prompt_events.
  destruct (t =? TYPE_MG)%Z; [|destruct (t =? TYPE_MFA)%Z];
    repeat constructor.
Qed.

Lemma iter_events_loop (h : Handles) (t : Z) (cs : CouplingSet)
  (l : lib_state) :
  Forall (loop_event h) (iter_events h t cs l).
Proof.
  unfold iter_events, setter_events.
  constructor; [exact I|].
  apply Forall_app. split.
  { destruct (t =? TYPE_MG)%Z; [|destruct (t =? TYPE_MFA)%Z];
      repeat constructor. }
  unfold getter_events, wimp_events, rates_events, table_events.
  repeat (apply Forall_app; split);
    repeat (apply Forall_cons; [cbn; tauto|]); apply Forall_nil.
Qed.

Lemma loop_run_events (h : Handles) (t : Z) (cin : list text) :
  forall l, Forall (loop_event h) (loop_events h t l cin).
Proof.
  unfold loop_events. induction cin as [|line rest IH]; intros l.
  - apply prompt_events_loop.
  - cbn [loop_run]. destruct (parse_line line) as [cs|].
    + specialize (IH (iter_lib h t cs l)).
      destruct (loop_run h t (iter_lib h t cs l) rest) as [[l' c'] ev].
      cbn [snd] in *.
      apply Forall_app; split; [apply prompt_events_loop|].
      apply Forall_app; split; [apply iter_events_loop|assumption].
    + apply prompt_events_loop.
Qed.

(** ** The fields of a line *)

Lemma reads_S (n : nat) (s : text) (v : double) (vs : list double)
  (r' : text) :
  reads (S n) s = Some (v :: vs, r') ->
  exists r, extract s = Some (v, r) /\ reads n r = Some (vs, r').
Proof.
  cbn [reads]. destruct (extract s) as [[v0 r]|]; [|discriminate].
  destruct (reads n r) as [[vs0 r0]|] eqn:E; [|discriminate].
  intros H. injection H as -> -> ->. exists r. split; [reflexivity|exact E].
Qed.

Lemma reads_app (n : nat) (s : text) (vs : list double) (r : text)
  (w : ascii) (x : text) :
  (0 < n)%nat ->
  reads n s = Some (vs, r) ->
  is_space w = true ->
  reads n (s ++ w :: x) = Some (vs, r ++ w :: x).
Proof.
  intros Hn H Hw. revert s vs H.
  induction n as [|n IH]; intros s vs H; [lia|].
  cbn [reads] in *.
  destruct (extract s) as [[v r1]|] eqn:E; [|discriminate].
  rewrite (extract_app s v r1 w x E Hw).
  destruct n as [|n].
  - cbn [reads] in *. injection H as <- <-. reflexivity.
  - destruct (reads (S n) r1) as [[vs1 r2]|] eqn:E1; [|discriminate].
    injection H as <- <-.
    rewrite (IH ltac:(lia) r1 vs1 E1). reflexivity.
Qed.

Lemma M_extract_float_space (w : ascii) (r : text) :
  is_space w = true -> M_extract_float (w :: r) = ([], w :: r).
Proof.
  intros Hw. destruct (space_not_lexed w Hw) as (Hd & Hs & Hp & He & H0).
  unfold M_extract_float. cbn [scan_sign]. rewrite Hs.
  cbn [leading_zero scan_zeros]. rewrite H0. cbn [scan_body].
  rewrite Hd, Hp, He. reflexivity.
Qed.

Lemma numeric_token_extract (t : text) (v : double) :
  numeric_token t v -> extract t = Some (v, []).
Proof.
  intros (xtrc & Hx & Hv). unfold extract.
  assert (Hs : skipws t = t).
  { destruct t as [|c r]; [reflexivity|]. cbn [skipws].
    destruct (is_space c) eqn:Hc; [|reflexivity].
    rewrite (M_extract_float_space c r Hc) in Hx. discriminate. }
  rewrite Hs, Hx, Hv. reflexivity.
Qed.

(** A line of numeric tokens has as many fields as tokens. *)
Lemma reads_join_fields (ts : list text) (vs : list double) :
  Forall2 numeric_token ts vs ->
  ts <> [] ->
  reads (List.length ts) (join_fields ts) = Some (vs, []).
Proof.
  induction 1 as [|t v ts vs Ht Hts IH]; intros Hne; [contradiction|].
  pose proof (numeric_token_extract t v Ht) as Et.
  destruct ts as [|t' ts].
  - inversion Hts; subst. cbn [join_fields List.length reads].
    rewrite Et. reflexivity.
  - change (join_fields (t :: t' :: ts))
      with (t ++ " "%char :: join_fields (t' :: ts)).
    change (List.length (t :: t' :: ts)) with (S (List.length (t' :: ts))).
    cbn [reads].
    rewrite (extract_app t v [] " "%char _ Et eq_refl). cbn [app].
    assert (Hr : reads (List.length (t' :: ts))
                   (" "%char :: join_fields (t' :: ts))
                 = reads (List.length (t' :: ts)) (join_fields (t' :: ts))).
    { cbn [List.length reads].
      change (" "%char :: join_fields (t' :: ts))
        with ([" "%char] ++ join_fields (t' :: ts)).
      rewrite (extract_spaces [" "%char] (join_fields (t' :: ts)) eq_refl).
      reflexivity. }
    rewrite Hr, IH by discriminate. reflexivity.
Qed.

Ltac read_fields H :=
  repeat match type of H with
         | reads (S _) _ = Some (_ :: _, _) =>
             let r := fresh "r" in
             let E := fresh "E" in
             apply reads_S in H; destruct H as (r & E & H)
         | reads O _ = Some ([], _) =>
             cbn [reads] in H; injection H as H
         end.

Lemma parse_line_2 (line : text) (M x : double) (s2 : text) :
  reads 2 line = Some ([M; x], s2) ->
  extract s2 = None ->
  parse_line line = Some (mkCS M x x dzero dzero).
Proof.
  intros H H3. read_fields H. subst. unfold parse_line.
  rewrite E, E0, H3. reflexivity.
Qed.

Lemma parse_line_3 (line : text) (M x y : double) (s3 : text) :
  reads 3 line = Some ([M; x; y], s3) ->
  extract s3 = None ->
  parse_line line = Some (mkCS M x y dzero dzero).
Proof.
  intros H H4. read_fields H. subst. unfold parse_line.
  rewrite E, E0, E1, H4. reflexivity.
Qed.

Lemma parse_line_4 (line : text) (M x y z : double) (s4 : text) :
  reads 4 line = Some ([M; x; y; z], s4) ->
  extract s4 = None ->
  parse_line line = Some (mkCS M x y z z).
Proof.
  intros H H5. read_fields H. subst. unfold parse_line.
  rewrite E, E0, E1, E2, H5. reflexivity.
Qed.

Lemma parse_line_5 (line : text) (M x y z u : double) (s5 : text) :
  reads 5 line = Some ([M; x; y; z; u], s5) ->
  parse_line line = Some (mkCS M x y z u).
Proof.
  intros H. read_fields H. subst. unfold parse_line.
  rewrite E, E0, E1, E2, E3. reflexivity.
Qed.

Lemma parse_line_0 (line : text) :
  extract line = None -> parse_line line = None.
Proof. intros H. unfold parse_line. rewrite H. reflexivity. Qed.

Lemma parse_line_1 (line : text) (M : double) (s1 : text) :
  reads 1 line = Some ([M], s1) ->
  extract s1 = None ->
  parse_line line = None.
Proof.
  intros H H2. read_fields H. subst. unfold parse_line.
  rewrite E, H2. reflexivity.
Qed.

(** [GetWIMPParams] on a state whose next input line is [line]. *)
Lemma GetWIMPParams_line (type : Z) (s : State) (line : text)
  (rest : list text) :
  st_cin s = line :: rest ->
  GetWIMPParams type s =
  mkResult (Return (parse_line line))
           (mkState (st_type s) (st_lib s) rest) (prompt_events type).
Proof.
  intros H. rewrite GetWIMPParams_run. unfold pop. rewrite H. reflexivity.
Qed.

(** ** [GetWIMPParams]: the cascade of defaults *)

(** C2. On a line with exactly two numeric fields [M] and [x] (two
    extractions succeed, the third fails) [GetWIMPParams] returns [true]
    and leaves [(M, x, x, 0, 0)]: the third field is the second, the fourth
    and the fifth are zero.  Only the prompt is written. *)
Theorem C2_two_fields (type : Z) (s : State) (line : text)
  (rest : list text) (M x : double) (s2 : text) :
  st_cin s = line :: rest ->
  reads 2 line = Some ([M; x], s2) ->
  extract s2 = None ->
  GetWIMPParams type s =
  mkResult (Return (Some (mkCS M x x dzero dzero)))
           (mkState (st_type s) (st_lib s) rest) (prompt_events type).
Proof.
  intros Hc H H3. rewrite (GetWIMPParams_line type s line rest Hc).
  rewrite (parse_line_2 line M x s2 H H3). reflexivity.
Qed.

(** C3. On a line with exactly four numeric fields [M x y z] the missing
    fifth field is the fourth, [(M, x, y, z, z)]; on a line with five
    fields the result is the five values as read.  [GetWIMPParams]
    returns [true] in both cases. *)
Theorem C3_four_and_five_fields (type : Z) (s : State) (line : text)
  (rest : list text) :
  st_cin s = line :: rest ->
  (forall M x y z s4,
      reads 4 line = Some ([M; x; y; z], s4) ->
      extract s4 = None ->
      GetWIMPParams type s =
      mkResult (Return (Some (mkCS M x y z z)))
               (mkState (st_type s) (st_lib s) rest) (prompt_events type))
  /\ (forall M x y z u s5,
         reads 5 line = Some ([M; x; y; z; u], s5) ->
         GetWIMPParams type s =
         mkResult (Return (Some (mkCS M x y z u)))
                  (mkState (st_type s) (st_lib s) rest) (prompt_events type)).
Proof.
  intros Hc. rewrite (GetWIMPParams_line type s line rest Hc). split.
  - intros M x y z s4 H H5. rewrite (parse_line_4 line M x y z s4 H H5).
    reflexivity.
  - intros M x y z u s5 H. rewrite (parse_line_5 line M x y z u s5 H).
    reflexivity.
Qed.

(** C10. When five fields have been read, white space and any further
    tokens after them are not looked at: [GetWIMPParams] returns [true]
    with the same five values as on the line that stops after the fifth
    field, and writes nothing but the prompt. *)
Theorem C10_extra_tokens_ignored (type : Z) (s : State) (line5 : text)
  (w : ascii) (extra : text) (rest : list text)
  (M x y z u : double) (s5 : text) :
  reads 5 line5 = Some ([M; x; y; z; u], s5) ->
  is_space w = true ->
  st_cin s = (line5 ++ w :: extra) :: rest ->
  GetWIMPParams type s =
  mkResult (Return (Some (mkCS M x y z u)))
           (mkState (st_type s) (st_lib s) rest) (prompt_events type)
  /\ parse_line (line5 ++ w :: extra) = parse_line line5.
Proof.
  intros H Hw Hc.
  assert (H' := reads_app 5 line5 _ s5 w extra ltac:(lia) H Hw).
  rewrite (GetWIMPParams_line type s _ rest Hc).
  rewrite (parse_line_5 _ M x y z u _ H').
  rewrite (parse_line_5 _ M x y z u _ H). split; reflexivity.
Qed.

(** ** Malformed tokens *)

(** One test of the loop condition, on a line that is refused and on a
    line that is accepted. *)
Lemma input_loop_refuse (n : nat) (h : Handles) (s : State) (line : text)
  (rest : list text) :
  st_cin s = line :: rest ->
  parse_line line = None ->
  input_loop (S n) h s =
  mkResult (Return tt) (mkState (st_type s) (st_lib s) rest)
           (prompt_events (st_type s)).
Proof.
  intros Hc Hp. rewrite input_loop_step, Hc. cbn [hd]. rewrite Hp.
  unfold pop. rewrite Hc. reflexivity.
Qed.

Lemma input_loop_accept (n : nat) (h : Handles) (s : State) (line : text)
  (rest : list text) (cs : CouplingSet) :
  st_cin s = line :: rest ->
  parse_line line = Some cs ->
  input_loop (S n) h s =
  mkResult (outcome (input_loop n h (after_report h s cs rest)))
           (final (input_loop n h (after_report h s cs rest)))
           (prompt_events (st_type s)
            ++ iter_events h (st_type s) cs (st_lib s)
            ++ events (input_loop n h (after_report h s cs rest))).
Proof.
  intros Hc Hp. rewrite input_loop_step, Hc. cbn [hd tl]. rewrite Hp.
  reflexivity.
Qed.

(** *** Tokens in a line *)

Lemma zero_is_digit (c : ascii) : Ascii.eqb c "0" = true -> is_digit c = true.
Proof. intros H. apply Ascii.eqb_eq in H. subst. reflexivity. Qed.

(** A character that cannot begin a number: nothing is accumulated. *)
Lemma M_extract_float_reject (c : ascii) (r : text) :
  is_digit c = false -> is_sign c = false -> is_point c = false ->
  M_extract_float (c :: r) = ([], c :: r).
Proof.
  intros Hd Hs Hp. unfold M_extract_float. cbn [scan_sign]. rewrite Hs.
  assert (H0 : Ascii.eqb c "0" = false).
  { destruct (Ascii.eqb c "0") eqn:E; [|reflexivity].
    rewrite (zero_is_digit c E) in Hd. discriminate. }
  cbn [leading_zero scan_zeros]. rewrite H0. cbn [scan_body].
  rewrite Hd, Hp. cbn [andb]. rewrite andb_false_r. reflexivity.
Qed.











(** ** The mode and [--help] *)

(** C5, as the code has it.  With [--mG] among the arguments, no [--mfa],
    and no [--help] in front of that [--mG], [type] is [TYPE_MG] when the
    parsing of the arguments ends; with neither flag it is [TYPE_MFA];
    without [--help] the parsing runs to its end; and an argument that is
    none of the three flags writes its warning and changes nothing. *)
Theorem C5_mode_from_flags (argv : list string) (s : State) :
  (forall pre post,
      tl argv = pre ++ "--mG" :: post ->
      ~ In "--help" pre ->
      ~ In "--mfa" (tl argv) ->
      st_type (final (parse_command_line argv s)) = TYPE_MG)
  /\ (~ In "--mG" (tl argv) ->
      ~ In "--mfa" (tl argv) ->
      st_type (final (parse_command_line argv s)) = TYPE_MFA)
  /\ (~ In "--help" (tl argv) ->
      outcome (parse_command_line argv s) = Return tt)
  /\ (forall u s',
         u <> "--mG" -> u <> "--mfa" -> u <> "--help" ->
         parse_arg u s' = mkResult (Return tt) s' [Cout (warning u)]).
Proof.
  rewrite parse_command_line_run. cbn [final outcome with_type st_type].
  repeat split.
  - intros pre post E Hh Hf. rewrite E, (until_help_app pre _ Hh).
    rewrite mode_after_no_mfa.
    + rewrite existsb_app. cbn [existsb].
      change (String.eqb "--mG" "--mG") with true.
      rewrite orb_true_r. reflexivity.
    + intros Hin. apply Hf. rewrite E. apply in_app_or in Hin.
      apply in_or_app. destruct Hin as [Hin|Hin]; [now left|right].
      now apply until_help_incl.
  - intros HG Hf. apply mode_after_no_flag.
    + intros Hin. apply HG. now apply until_help_incl.
    + intros Hin. apply Hf. now apply until_help_incl.
  - intros Hh. rewrite (no_help _ Hh). reflexivity.
  - intros u s' HG Hf Hh. apply parse_arg_unknown. unfold unknown.
    apply String.eqb_neq in HG, Hf, Hh. rewrite HG, Hf, Hh. reflexivity.
Qed.

(** C6, as the code has it.  With [--help] among the arguments the program
    writes the warnings for the unknown arguments in front of the first
    [--help], then the four lines of the usage message, and leaves with
    [exit(0)]: no call into the library is made and no input is read. *)
Theorem C6_help_exits (fuel : nat) (argv : list string) (cin : list text)
  (l0 : lib_state) :
  In "--help" (tl argv) ->
  outcome (run fuel argv cin l0) = Exit 0%Z
  /\ events (run fuel argv cin l0) =
     warnings (until_help (tl argv))
     ++ [Cout "Usage:";
         Cout "  ./DDCalc_exampleC [--mG|--mfa]";
         Cout "where the optional flag specifies the form in which the WIMP-";
         Cout "nucleon couplings will be provided (default: --mfa)."]
  /\ (forall e, In e (events (run fuel argv cin l0)) ->
                exists line, e = Cout line)
  /\ st_lib (final (run fuel argv cin l0)) = l0
  /\ st_cin (final (run fuel argv cin l0)) = cin.
Proof.
  intros Hh. rewrite (run_help fuel argv cin l0 Hh).
  cbn [outcome events final st_lib st_cin]. repeat split.
  intros e He. apply in_app_or in He. destruct He as [He|He].
  - unfold warnings in He. apply in_map_iff in He.
    destruct He as (a & <- & _). eexists. reflexivity.
  - cbn in He. decompose [or] He; try contradiction; subst;
      eexists; reflexivity.
Qed.

(** C9. When both flags are given the last one decides: behind the last
    mode flag, with no [--help] in front of it, [type] is the mode of that
    flag when the parsing ends; and each flag stores its mode whatever
    [type] was. *)
Theorem C9_last_flag_wins (argv pre post : list string) (flag : string)
  (s : State) :
  tl argv = pre ++ flag :: post ->
  flag = "--mG" \/ flag = "--mfa" ->
  ~ In "--help" pre ->
  ~ In "--mG" post ->
  ~ In "--mfa" post ->
  st_type (final (parse_command_line argv s))
  = (if String.eqb flag "--mG" then TYPE_MG else TYPE_MFA)
  /\ (forall s',
         parse_arg flag s' =
         mkResult (Return tt)
                  (mkState (if String.eqb flag "--mG" then TYPE_MG
                            else TYPE_MFA) (st_lib s') (st_cin s')) []).
Proof.
  intros E Hflag Hh HG Hf. split.
  - rewrite parse_command_line_run. cbn [final with_type st_type].
    rewrite E, (until_help_app pre _ Hh), mode_after_app.
    assert (Hflag' : is_help flag = false)
      by (destruct Hflag; subst; reflexivity).
    cbn [until_help]. rewrite Hflag'. cbn [mode_after].
    rewrite mode_after_no_flag.
    + destruct Hflag; subst; reflexivity.
    + intros Hin. apply HG. now apply until_help_incl.
    + intros Hin. apply Hf. now apply until_help_incl.
  - intros s'. destruct Hflag; subst; reflexivity.
Qed.

(** ** The end of the input, the iteration and the session *)

Lemma ends_input_refused (tail : list text) :
  ends_input tail -> parse_line (hd [] tail) = None.
Proof.
  intros [-> | (bad & rest & -> & [Hb | [H1 | (M & s1 & H1 & H2)]])];
    cbn [hd].
  - reflexivity.
  - apply parse_line_0, extract_blank, Hb.
  - apply parse_line_0, H1.
  - unfold parse_line. rewrite H1, H2. reflexivity.
Qed.

Lemma warnings_cout (args : list string) (e : Event) :
  In e (warnings args) -> exists line, e = Cout line.
Proof.
  unfold warnings. intros H. apply in_map_iff in H.
  destruct H as (a & <- & _). eexists. reflexivity.
Qed.




(** C7, as the code has it.  An iteration on an accepted line writes the
    prompt and an empty line, calls the setter of the mode ([SetWIMP_mG]
    for [TYPE_MG], [SetWIMP_mfa] for [TYPE_MFA]) on the library as it is,
    then [GetWIMP_mfa] and [GetWIMP_mG], for display: it writes the WIMP
    mass that [GetWIMP_mG] returned and the couplings that the two getters
    returned; then it calls [CalcRates] once for each of the four detectors
    with the WIMP and the halo, and then writes the table of the detectors
    from the library as these calls left it, on which the loop goes on;
    [type] is one of the two modes whenever the loop runs. *)
Theorem C7_iteration_order (n : nat) (h : Handles) (s : State) (line : text)
  (rest : list text) (cs : CouplingSet) :
  st_cin s = line :: rest ->
  parse_line line = Some cs ->
  st_type s = TYPE_MG \/ st_type s = TYPE_MFA ->
  let l1 :=
    if (st_type s =? TYPE_MG)%Z then SetWIMP_mG (WIMP h) cs (st_lib s)
    else SetWIMP_mfa (WIMP h) cs (st_lib s) in
  let mfa := fst (GetWIMP_mfa (WIMP h) l1) in
  let l2 := snd (GetWIMP_mfa (WIMP h) l1) in
  let mG := fst (GetWIMP_mG (WIMP h) l2) in
  let l3 := snd (GetWIMP_mG (WIMP h) l2) in
  let l4 :=
    CalcRates (SIMPLE h) (WIMP h) (Halo h)
      (CalcRates (SCDMS h) (WIMP h) (Halo h)
         (CalcRates (LUX h) (WIMP h) (Halo h)
            (CalcRates (XENON h) (WIMP h) (Halo h) l3))) in
  events (input_loop (S n) h s) =
  prompt_events (st_type s)
  ++ [Cout "";
      if (st_type s =? TYPE_MG)%Z then Call_SetWIMP_mG (WIMP h) cs
      else Call_SetWIMP_mfa (WIMP h) cs;
      Call_GetWIMP_mfa (WIMP h);
      Call_GetWIMP_mG (WIMP h)]
  ++ wimp_events mfa mG
  ++ [Call_CalcRates (XENON h) (WIMP h) (Halo h);
      Call_CalcRates (LUX h) (WIMP h) (Halo h);
      Call_CalcRates (SCDMS h) (WIMP h) (Halo h);
      Call_CalcRates (SIMPLE h) (WIMP h) (Halo h)]
  ++ table_events h l4
  ++ events (input_loop n h (mkState (st_type s) l4 rest))
  /\ (forall argv s0,
         let t := st_type (final (parse_command_line argv s0)) in
         t = TYPE_MG \/ t = TYPE_MFA).
Proof.
  intros Hc Hp Ht. cbv zeta. split.
  - rewrite (input_loop_accept n h s line rest cs Hc Hp). cbn [events].
    unfold after_report, iter_events, iter_lib, lib_rates, lib_get, lib_set,
      setter_events, getter_events, rates_events.
    destruct Ht as [-> | ->];
      cbn [Z.eqb TYPE_MG TYPE_MFA Pos.eqb app];
      rewrite <- ?app_assoc; cbn [app]; reflexivity.
  - intros argv s0. rewrite parse_command_line_run.
    cbn [final with_type st_type].
    apply mode_after_valid. now right.
Qed.

Lemma split_behind {A} (a b pre post : list A) (e : A) :
  ~ In e a ->
  a ++ b = pre ++ e :: post ->
  exists mid, pre = a ++ mid /\ b = mid ++ e :: post.
Proof.
  revert pre. induction a as [|x a IH]; intros pre Hn E.
  - exists pre. split; [reflexivity|exact E].
  - destruct pre as [|y pre]; cbn [app] in E; injection E as -> E.
    + exfalso. apply Hn. now left.
    + destruct (IH pre) as (mid & -> & ->); [|exact E|].
      * intros Hin. apply Hn. now right.
      * exists mid. split; reflexivity.
Qed.

Lemma init_handles_eq (l0 : lib_state) :
  let halo := InitHalo l0 in
  let wimp := InitWIMP (snd halo) in
  let xenon := XENON100_2012_Init (snd wimp) in
  let lux := LUX_2013_Init (snd xenon) in
  let scdms := SuperCDMS_2014_Init (snd lux) in
  let simple := SIMPLE_2014_Init (snd scdms) in
  init_handles l0 =
  (mkHandles (fst halo) (fst wimp) (fst xenon) (fst lux) (fst scdms)
             (fst simple), snd simple).
Proof.
  cbv zeta. unfold init_handles.
  destruct (InitHalo l0) as [a l1]. cbn [fst snd].
  destruct (InitWIMP l1) as [b l2]. cbn [fst snd].
  destruct (XENON100_2012_Init l2) as [c l3]. cbn [fst snd].
  destruct (LUX_2013_Init l3) as [d l4]. cbn [fst snd].
  destruct (SuperCDMS_2014_Init l4) as [e l5]. cbn [fst snd].
  destruct (SIMPLE_2014_Init l5) as [f l6]. reflexivity.
Qed.

(** C8. Without [--help], [main] calls [InitHalo], [InitWIMP] and the
    factories of XENON100 2012, LUX 2013, SuperCDMS 2014 and SIMPLE 2014,
    in this order and once each, each on the library as the call before it
    left it, after the warnings and before the first prompt.  The loop
    runs with the six handles that these calls returned, on the library
    as the last of them left it, and makes no factory call; every
    [CalcRates] of the run comes behind the six calls and is given the
    WIMP handle, the halo handle and one of the four detector handles.
    [FreeAll] is applied to the library as the loop left it. *)
Theorem C8_handles_before_loop (fuel : nat) (argv : list string)
  (cin : list text) (l0 : lib_state) :
  ~ In "--help" (tl argv) ->
  (List.length cin < fuel)%nat ->
  let halo := InitHalo l0 in
  let wimp := InitWIMP (snd halo) in
  let xenon := XENON100_2012_Init (snd wimp) in
  let lux := LUX_2013_Init (snd xenon) in
  let scdms := SuperCDMS_2014_Init (snd lux) in
  let simple := SIMPLE_2014_Init (snd scdms) in
  let h := mkHandles (fst halo) (fst wimp) (fst xenon) (fst lux)
                     (fst scdms) (fst simple) in
  let t := st_type (final (parse_command_line argv (mkState 0%Z l0 cin))) in
  let loop := input_loop fuel h (mkState t (snd simple) cin) in
  events (run fuel argv cin l0) =
  warnings (tl argv)
  ++ [Call_InitHalo (fst halo); Call_InitWIMP (fst wimp);
      Call_XENON100_2012_Init (fst xenon); Call_LUX_2013_Init (fst lux);
      Call_SuperCDMS_2014_Init (fst scdms);
      Call_SIMPLE_2014_Init (fst simple)]
  ++ events loop ++ [Call_FreeAll]
  /\ final (run fuel argv cin l0)
     = mkState t (FreeAll (st_lib (final loop))) (st_cin (final loop))
  /\ Forall (loop_event h) (events loop)
  /\ forall pre post d w hl,
       events (run fuel argv cin l0) = pre ++ Call_CalcRates d w hl :: post ->
       (exists mid, pre = warnings (tl argv) ++ init_events h ++ mid)
       /\ w = WIMP h /\ hl = Halo h
       /\ (d = XENON h \/ d = LUX h \/ d = SCDMS h \/ d = SIMPLE h).
Proof.
  intros Hh Hf. cbv zeta.
  pose proof (init_handles_eq l0) as Hi. cbv zeta in Hi.
  set (h := mkHandles _ _ _ _ _ _) in *.
  set (l1 := snd (SIMPLE_2014_Init _)) in *.
  rewrite (run_no_help fuel argv cin l0 Hh Hf). cbv zeta.
  rewrite parse_command_line_run, (until_help_no_help _ Hh).
  cbn [events final with_type st_type]. rewrite Hi. cbn [fst snd].
  set (t := mode_after TYPE_MFA (tl argv)).
  rewrite (input_loop_run fuel h (mkState t l1 cin) Hf).
  cbn [events final st_lib st_type st_cin].
  pose proof (loop_run_events h t cin l1) as Hall.
  split; [reflexivity|]. split; [reflexivity|]. split; [exact Hall|].
  intros pre post d w hl E.
  change [Call_InitHalo (Halo h); Call_InitWIMP (WIMP h);
          Call_XENON100_2012_Init (XENON h); Call_LUX_2013_Init (LUX h);
          Call_SuperCDMS_2014_Init (SCDMS h); Call_SIMPLE_2014_Init (SIMPLE h)]
    with (init_events h) in E.
  rewrite app_assoc in E.
  apply split_behind in E.
  - destruct E as (mid & -> & E).
    assert (Hin : In (Call_CalcRates d w hl)
                     (loop_events h t l1 cin ++ [Call_FreeAll])).
    { rewrite E. apply in_or_app. right. now left. }
    apply in_app_or in Hin. destruct Hin as [Hin|Hin].
    + rewrite Forall_forall in Hall. specialize (Hall _ Hin). cbn in Hall.
      split; [|exact Hall].
      exists mid. rewrite app_assoc. reflexivity.
    + cbn in Hin. destruct Hin as [Hin|[]]. discriminate.
  - intros Hin. apply in_app_or in Hin. destruct Hin as [Hin|Hin].
    + apply warnings_cout in Hin. destruct Hin as [? Hin]. discriminate.
    + cbn in Hin. decompose [or] Hin; try discriminate; contradiction.
Qed.


(** * Further properties *)

(** ** More about the fields of a line *)

(** X1. On a line with exactly three numeric fields [M x y] (three
    extractions succeed, the fourth fails) [GetWIMPParams] returns [true]
    with [(M, x, y, 0, 0)]: both spin-dependent fields are zero.  Only the
    prompt is written. *)
Theorem X1_three_fields (type : Z) (s : State) (line : text)
  (rest : list text) (M x y : double) (s3 : text) :
  st_cin s = line :: rest ->
  reads 3 line = Some ([M; x; y], s3) ->
  extract s3 = None ->
  GetWIMPParams type s =
  mkResult (Return (Some (mkCS M x y dzero dzero)))
           (mkState (st_type s) (st_lib s) rest) (prompt_events type).
Proof.
  intros Hc H H4. rewrite (GetWIMPParams_line type s line rest Hc).
  rewrite (parse_line_3 line M x y s3 H H4). reflexivity.
Qed.

Lemma join_fields_cons (t t' : text) (ts : list text) :
  join_fields (t :: t' :: ts) = t ++ " "%char :: join_fields (t' :: ts).
Proof. reflexivity. Qed.

Lemma parse_line_reads_5 (line : text) (M x y z u : double) (s5 : text)
  (w : ascii) (more : text) :
  reads 5 line = Some ([M; x; y; z; u], s5) ->
  is_space w = true ->
  parse_line (line ++ w :: more) = Some (mkCS M x y z u).
Proof.
  intros H Hw.
  apply (parse_line_5 _ M x y z u (s5 ++ w :: more)).
  apply (reads_app 5 line _ s5 w more); [lia|exact H|exact Hw].
Qed.

(** X2. On a line made of numeric tokens with one blank between them, the
    result of the parse is the cascade of defaults applied to the values of
    the tokens: failure for no token or one, [(M,x,x,0,0)] for two,
    [(M,x,y,0,0)] for three, [(M,x,y,z,z)] for four, and the first five
    values for five tokens or more. *)
Theorem X2_parse_line_tokens (ts : list text) (vs : list double) :
  Forall2 numeric_token ts vs ->
  parse_line (join_fields ts) = fill_defaults vs.
Proof.
  intros H.
  destruct H as [|t1 v1 ts vs H1 H]; [reflexivity|].
  destruct H as [|t2 v2 ts vs H2 H].
  { apply (parse_line_1 _ v1 []); [|reflexivity].
    apply (reads_join_fields [t1] [v1]); [repeat constructor; assumption|].
    discriminate. }
  destruct H as [|t3 v3 ts vs H3 H].
  { apply (parse_line_2 _ v1 v2 []); [|reflexivity].
    apply (reads_join_fields [t1; t2] [v1; v2]);
      [repeat constructor; assumption|discriminate]. }
  destruct H as [|t4 v4 ts vs H4 H].
  { apply (parse_line_3 _ v1 v2 v3 []); [|reflexivity].
    apply (reads_join_fields [t1; t2; t3] [v1; v2; v3]);
      [repeat constructor; assumption|discriminate]. }
  destruct H as [|t5 v5 ts vs H5 H].
  { apply (parse_line_4 _ v1 v2 v3 v4 []); [|reflexivity].
    apply (reads_join_fields [t1; t2; t3; t4] [v1; v2; v3; v4]);
      [repeat constructor; assumption|discriminate]. }
  assert (R5 : reads 5 (join_fields [t1; t2; t3; t4; t5])
               = Some ([v1; v2; v3; v4; v5], [])).
  { apply (reads_join_fields [t1; t2; t3; t4; t5] [v1; v2; v3; v4; v5]);
      [repeat constructor; assumption|discriminate]. }
  destruct H as [|t6 v6 ts vs H6 H].
  { apply (parse_line_5 _ v1 v2 v3 v4 v5 []). exact R5. }
  cbn [fill_defaults].
  assert (E : join_fields (t1 :: t2 :: t3 :: t4 :: t5 :: t6 :: ts)
              = join_fields [t1; t2; t3; t4; t5]
                ++ " "%char :: join_fields (t6 :: ts)).
  { rewrite !join_fields_cons. cbn [join_fields].
    rewrite <- !app_assoc. cbn [app]. rewrite <- !app_assoc. cbn [app].
    rewrite <- !app_assoc. cbn [app]. rewrite <- !app_assoc. reflexivity. }
  rewrite E.
  apply (parse_line_reads_5 _ v1 v2 v3 v4 v5 [] _ _ R5). reflexivity.
Qed.


(** White space behind the text changes nothing but what is left. *)
Lemma extract_trailing (s ws : text) :
  forallb is_space ws = true ->
  extract (s ++ ws) =
  match extract s with
  | Some (v, r) => Some (v, r ++ ws)
  | None => None
  end.
Proof.
  intros Hws. destruct ws as [|w x].
  { rewrite app_nil_r. destruct (extract s) as [[v r]|]; [|reflexivity].
    rewrite app_nil_r. reflexivity. }
  assert (Hw : is_space w = true)
    by (cbn [forallb] in Hws; apply andb_true_iff in Hws; tauto).
  destruct (skipws s) as [|c r] eqn:Es.
  - rewrite (extract_blank s Es). apply extract_blank.
    rewrite (skipws_blank_app s _ Es). apply skipws_all_spaces, Hws.
  - unfold extract. rewrite (skipws_app s (w :: x)) by (rewrite Es; discriminate).
    rewrite (M_extract_float_app _ w x Hw), Es.
    destruct (M_extract_float (c :: r)) as [xtrc r']. cbn [fst snd].
    destruct (convert_to_v xtrc); reflexivity.
Qed.

Lemma parse_line_trailing (line ws : text) :
  forallb is_space ws = true ->
  parse_line (line ++ ws) = parse_line line.
Proof.
  intros Hws. unfold parse_line.
  rewrite (extract_trailing line ws Hws).
  destruct (extract line) as [[M s1]|]; [|reflexivity].
  rewrite (extract_trailing s1 ws Hws).
  destruct (extract s1) as [[x s2]|]; [|reflexivity].
  rewrite (extract_trailing s2 ws Hws).
  destruct (extract s2) as [[y s3]|]; [|reflexivity].
  rewrite (extract_trailing s3 ws Hws).
  destruct (extract s3) as [[z s4]|]; [|reflexivity].
  rewrite (extract_trailing s4 ws Hws).
  destruct (extract s4) as [[u s5]|]; reflexivity.
Qed.

Lemma parse_line_leading (ws line : text) :
  forallb is_space ws = true ->
  parse_line (ws ++ line) = parse_line line.
Proof.
  intros Hws. unfold parse_line. rewrite (extract_spaces ws line Hws).
  reflexivity.
Qed.

(** X3. White space in front of a line and behind it does not change what
    [GetWIMPParams] makes of the line, on any line: neither the verdict nor
    the five values. *)
Theorem X3_surrounding_white_space (type : Z) (s : State)
  (ws1 line ws2 : text) (rest : list text) :
  forallb is_space ws1 = true ->
  forallb is_space ws2 = true ->
  st_cin s = (ws1 ++ line ++ ws2) :: rest ->
  parse_line (ws1 ++ line ++ ws2) = parse_line line
  /\ GetWIMPParams type s =
     mkResult (Return (parse_line line))
              (mkState (st_type s) (st_lib s) rest) (prompt_events type).
Proof.
  intros H1 H2 Hc.
  assert (E : parse_line (ws1 ++ line ++ ws2) = parse_line line).
  { rewrite (parse_line_leading ws1 _ H1). apply parse_line_trailing, H2. }
  split; [exact E|].
  rewrite (GetWIMPParams_line type s _ rest Hc), E. reflexivity.
Qed.

(** X4. A line whose first character after the white space is not a digit,
    a sign or a point is refused whatever follows: [GetWIMPParams] returns
    [false] and the loop ends there, with the prompt as its only output. *)
Theorem X4_line_not_starting_a_number (n : nat) (h : Handles) (s : State)
  (line : text) (rest : list text) (c : ascii) (r : text) :
  st_cin s = line :: rest ->
  skipws line = c :: r ->
  is_digit c = false -> is_sign c = false -> is_point c = false ->
  parse_line line = None
  /\ input_loop (S n) h s =
     mkResult (Return tt) (mkState (st_type s) (st_lib s) rest)
              (prompt_events (st_type s)).
Proof.
  intros Hc Hs Hd Hsg Hp.
  assert (E : parse_line line = None).
  { apply parse_line_0. unfold extract.
    rewrite Hs, (M_extract_float_reject c r Hd Hsg Hp). reflexivity. }
  split; [exact E|]. apply (input_loop_refuse n h s line rest Hc E).
Qed.


(** ** Every read moves on *)

Lemma skipws_length (s : text) :
  (List.length (skipws s) <= List.length s)%nat.
Proof.
  induction s as [|c r IH]; cbn [skipws List.length]; [lia|].
  destruct (is_space c); cbn [List.length]; lia.
Qed.

Lemma scan_zeros_length (s : text) :
  (List.length (scan_zeros s) + (if leading_zero s then 1 else 0)
   <= List.length s)%nat.
Proof.
  assert (H : forall t, (List.length (scan_zeros t) <= List.length t)%nat).
  { induction t as [|c r IH]; cbn [scan_zeros List.length]; [lia|].
    destruct (Ascii.eqb c "0"); cbn [List.length]; lia. }
  destruct s as [|c r]; cbn [scan_zeros leading_zero List.length]; [lia|].
  destruct (Ascii.eqb c "0"); cbn [List.length]; [|lia].
  specialize (H r). lia.
Qed.

(** The main loop puts one character into [xtrc] for each one it takes. *)
Lemma scan_body_length (n : nat) :
  forall (s : text) (fm fd fs : bool),
    (List.length s <= n)%nat ->
    (List.length (fst (scan_body fm fd fs s))
     + List.length (snd (scan_body fm fd fs s)) = List.length s)%nat.
Proof.
  induction n as [|n IH]; intros s fm fd fs Hn.
  - destruct s; [reflexivity|cbn in Hn; lia].
  - destruct s as [|c r]; [reflexivity|].
    cbn [List.length] in Hn. cbn [scan_body].
    destruct (is_digit c).
    { specialize (IH r true fd fs ltac:(lia)).
      destruct (scan_body true fd fs r). cbn [fst snd List.length] in *. lia. }
    destruct (is_point c && negb fd && negb fs).
    { specialize (IH r fm true fs ltac:(lia)).
      destruct (scan_body fm true fs r). cbn [fst snd List.length] in *. lia. }
    destruct (is_exp c && negb fs && fm); [|cbn [fst snd List.length]; lia].
    destruct r as [|c2 r2]; [reflexivity|].
    cbn [List.length] in Hn.
    destruct (is_sign c2).
    + specialize (IH r2 fm fd true ltac:(lia)).
      destruct (scan_body fm fd true r2). cbn [fst snd List.length] in *. lia.
    + specialize (IH (c2 :: r2) fm fd true ltac:(cbn [List.length]; lia)).
      destruct (scan_body fm fd true (c2 :: r2)).
      cbn [fst snd List.length] in *. lia.
Qed.

Lemma M_extract_float_length (s : text) :
  (List.length (fst (M_extract_float s))
   + List.length (snd (M_extract_float s)) <= List.length s)%nat.
Proof.
  unfold M_extract_float.
  assert (Hs : (List.length (fst (scan_sign s))
                + List.length (snd (scan_sign s)) = List.length s)%nat).
  { destruct s as [|c r]; [reflexivity|]. cbn [scan_sign].
    destruct (is_sign c); reflexivity. }
  destruct (scan_sign s) as [sg s1]. cbn [fst snd] in Hs.
  pose proof (scan_zeros_length s1) as Hz.
  pose proof (scan_body_length (List.length (scan_zeros s1)) (scan_zeros s1)
                (leading_zero s1) false false ltac:(lia)) as Hb.
  destruct (scan_body (leading_zero s1) false false (scan_zeros s1))
    as [x rest].
  cbn [fst snd] in *. rewrite !length_app.
  destruct (leading_zero s1); cbn [List.length] in *; lia.
Qed.

Lemma extract_progress (s : text) (v : double) (rest : text) :
  extract s = Some (v, rest) ->
  (List.length rest < List.length s)%nat.
Proof.
  unfold extract. intros H.
  pose proof (M_extract_float_length (skipws s)) as Hl.
  pose proof (skipws_length s) as Hw.
  destruct (M_extract_float (skipws s)) as [xtrc r]. cbn [fst snd] in Hl.
  destruct xtrc as [|c xtrc]; [discriminate H|].
  destruct (convert_to_v (c :: xtrc)); [|discriminate].
  injection H as _ <-. cbn [List.length] in Hl. lia.
Qed.

(** X9. Every successful read of a field takes at least one character from
    the buffer: after [n] fields the line is shorter by [n] characters or
    more, and the values are [n]. *)
Theorem X9_reads_consume (n : nat) (line : text) (vs : list double)
  (rest : text) :
  reads n line = Some (vs, rest) ->
  List.length vs = n
  /\ (n + List.length rest <= List.length line)%nat.
Proof.
  revert line vs. induction n as [|n IH]; intros line vs H.
  - cbn [reads] in H. injection H as <- <-. split; [reflexivity|lia].
  - cbn [reads] in H.
    destruct (extract line) as [[v r]|] eqn:E; [|discriminate].
    destruct (reads n r) as [[vs' r']|] eqn:E'; [|discriminate].
    injection H as <- <-.
    destruct (IH r vs' E') as [Hl Hr].
    pose proof (extract_progress line v r E).
    cbn [List.length]. split; lia.
Qed.


(** ** Counting the calls of a run *)

Lemma count_app (p : Event -> bool) (a b : list Event) :
  count p (a ++ b) = (count p a + count p b)%nat.
Proof. unfold count. rewrite filter_app, length_app. reflexivity. Qed.

Lemma count_warnings (p : Event -> bool) (args : list string) :
  (forall line, p (Cout line) = false) -> count p (warnings args) = 0%nat.
Proof.
  intros Hp. unfold warnings, count.
  induction (filter unknown args) as [|a r IH]; [reflexivity|].
  cbn [map filter]. rewrite Hp. exact IH.
Qed.

Lemma count_prompt (p : Event -> bool) (t : Z) :
  (forall line, p (Cout line) = false) -> count p (prompt_events t) = 0%nat.
Proof.
  intros Hp. unfold prompt_events, count.
  destruct (t =? TYPE_MG)%Z; [|destruct (t =? TYPE_MFA)%Z];
    cbn [app filter]; rewrite ?Hp; reflexivity.
Qed.


(** The events of the loop on accepted lines, counted by kind. *)
Lemma count_loop_events (p : Event -> bool) (k : nat) (h : Handles) (t : Z)
  (good : list text) :
  (forall line, p (Cout line) = false) ->
  (forall cs l, count p (iter_events h t cs l) = k) ->
  Forall accepted good ->
  forall l, count p (loop_events h t l good) = (List.length good * k)%nat.
Proof.
  intros Hc Hk Hg. unfold loop_events.
  induction Hg as [|line good Hl _ IH]; intros l.
  - cbn [loop_run snd List.length]. apply (count_prompt p t Hc).
  - cbn [loop_run List.length]. unfold accepted in Hl.
    destruct (parse_line line) as [cs|]; [|contradiction].
    specialize (IH (iter_lib h t cs l)).
    destruct (loop_run h t (iter_lib h t cs l) good) as [[l' c'] ev].
    cbn [snd] in *.
    rewrite !count_app, (count_prompt p t Hc), Hk, IH. lia.
Qed.

Lemma loop_events_stop (h : Handles) (t : Z) (good tail : list text)
  (l : lib_state) :
  Forall accepted good ->
  ends_input tail ->
  loop_events h t l (good ++ tail) = loop_events h t l good.
Proof.
  intros Hg Ht. unfold loop_events at 1.
  rewrite (loop_run_stop h t good tail Hg (ends_input_refused tail Ht) l).
  reflexivity.
Qed.

Lemma count_iter_CalcRates (h : Handles) (t : Z) (cs : CouplingSet)
  (l : lib_state) :
  count is_CalcRates (iter_events h t cs l) = 4%nat.
Proof.
  unfold iter_events, setter_events, count.
  destruct (t =? TYPE_MG)%Z; [|destruct (t =? TYPE_MFA)%Z]; reflexivity.
Qed.

Lemma count_iter_GetWIMP (h : Handles) (t : Z) (cs : CouplingSet)
  (l : lib_state) :
  count is_GetWIMP (iter_events h t cs l) = 2%nat.
Proof.
  unfold iter_events, setter_events, count.
  destruct (t =? TYPE_MG)%Z; [|destruct (t =? TYPE_MFA)%Z]; reflexivity.
Qed.

Lemma count_iter_SetWIMP_mG (h : Handles) (t : Z) (cs : CouplingSet)
  (l : lib_state) :
  count is_SetWIMP_mG (iter_events h t cs l)
  = if (t =? TYPE_MG)%Z then 1%nat else 0%nat.
Proof.
  unfold iter_events, setter_events, count.
  destruct (t =? TYPE_MG)%Z; [|destruct (t =? TYPE_MFA)%Z]; reflexivity.
Qed.

Lemma count_iter_SetWIMP_mfa (h : Handles) (t : Z) (cs : CouplingSet)
  (l : lib_state) :
  t = TYPE_MG \/ t = TYPE_MFA ->
  count is_SetWIMP_mfa (iter_events h t cs l)
  = if (t =? TYPE_MG)%Z then 0%nat else 1%nat.
Proof.
  unfold iter_events, setter_events, count.
  intros [-> | ->]; reflexivity.
Qed.

Lemma count_iter_FreeAll (h : Handles) (t : Z) (cs : CouplingSet)
  (l : lib_state) :
  count is_FreeAll (iter_events h t cs l) = 0%nat.
Proof.
  unfold iter_events, setter_events, count.
  destruct (t =? TYPE_MG)%Z; [|destruct (t =? TYPE_MFA)%Z]; reflexivity.
Qed.

(** X5. In a run without [--help] whose input has [n] accepted lines in
    front of the line that ends it, the program calls [CalcRates] [4 n]
    times, the two getters [2 n] times together, the setter of the mode
    chosen on the command line [n] times and the other setter never, and
    [FreeAll] once. *)
Theorem X5_calls_of_a_run (fuel : nat) (argv : list string)
  (good tail : list text) (l0 : lib_state) :
  ~ In "--help" (tl argv) ->
  Forall accepted good ->
  ends_input tail ->
  (List.length (good ++ tail) < fuel)%nat ->
  let r := run fuel argv (good ++ tail) l0 in
  let n := List.length good in
  count is_CalcRates (events r) = (4 * n)%nat
  /\ count is_GetWIMP (events r) = (2 * n)%nat
  /\ count is_SetWIMP_mG (events r)
     = (if (st_type (final r) =? TYPE_MG)%Z then n else 0%nat)
  /\ count is_SetWIMP_mfa (events r)
     = (if (st_type (final r) =? TYPE_MG)%Z then 0%nat else n)
  /\ count is_FreeAll (events r) = 1%nat.
Proof.
  intros Hh Hg Ht Hf. cbv zeta.
  rewrite (run_no_help fuel argv _ l0 Hh Hf). cbv zeta.
  cbn [events final st_type].
  set (t := mode_after TYPE_MFA (tl argv)).
  set (h := fst (init_handles l0)).
  set (l1 := snd (init_handles l0)).
  rewrite (loop_events_stop h t good tail l1 Hg Ht).
  assert (Hv : t = TYPE_MG \/ t = TYPE_MFA)
    by (apply mode_after_valid; now right).
  rewrite !count_app.
  rewrite !count_warnings by reflexivity.
  rewrite (count_loop_events is_CalcRates 4 h t good) by
    (try reflexivity; try assumption; intros; apply count_iter_CalcRates).
  rewrite (count_loop_events is_GetWIMP 2 h t good) by
    (try reflexivity; try assumption; intros; apply count_iter_GetWIMP).
  rewrite (count_loop_events is_SetWIMP_mG
             (if (t =? TYPE_MG)%Z then 1 else 0)%nat h t good) by
    (try reflexivity; try assumption; intros; apply count_iter_SetWIMP_mG).
  rewrite (count_loop_events is_SetWIMP_mfa
             (if (t =? TYPE_MG)%Z then 0 else 1)%nat h t good) by
    (try reflexivity; try assumption; intros;
     apply count_iter_SetWIMP_mfa; assumption).
  rewrite (count_loop_events is_FreeAll 0 h t good) by
    (try reflexivity; try assumption; intros; apply count_iter_FreeAll).
  unfold count, init_events. cbn [filter is_CalcRates is_GetWIMP
    is_SetWIMP_mG is_SetWIMP_mfa is_FreeAll List.length].
  destruct (t =? TYPE_MG)%Z; repeat split; lia.
Qed.


(** ** Unknown arguments *)

Lemma known_help (a : string) : is_help a = true -> known a = true.
Proof.
  unfold is_help, known, unknown. intros ->.
  rewrite !orb_true_r. reflexivity.
Qed.

Lemma filter_known_help (args : list string) :
  existsb is_help (filter known args) = existsb is_help args.
Proof.
  induction args as [|a r IH]; [reflexivity|]. cbn [filter existsb].
  destruct (known a) eqn:K.
  - cbn [existsb]. rewrite IH. reflexivity.
  - rewrite IH. destruct (is_help a) eqn:E; [|reflexivity].
    rewrite (known_help a E) in K. discriminate.
Qed.

Lemma filter_known_until_help (args : list string) :
  until_help (filter known args) = filter known (until_help args).
Proof.
  induction args as [|a r IH]; [reflexivity|]. cbn [filter until_help].
  destruct (is_help a) eqn:E.
  - rewrite (known_help a E). cbn [until_help]. rewrite E. reflexivity.
  - destruct (known a) eqn:K; cbn [filter until_help];
      rewrite ?E, ?K, IH; reflexivity.
Qed.

Lemma filter_known_mode (t : Z) (args : list string) :
  mode_after t (filter known args) = mode_after t args.
Proof.
  revert t. induction args as [|a r IH]; intros t; [reflexivity|].
  cbn [filter]. destruct (known a) eqn:K.
  - cbn [mode_after]. apply IH.
  - rewrite IH. symmetry. apply unknown_mode.
    unfold known in K. apply negb_false_iff in K. exact K.
Qed.

Lemma filter_known_warnings (args : list string) :
  warnings (filter known args) = [].
Proof.
  unfold warnings. induction args as [|a r IH]; [reflexivity|].
  cbn [filter]. destruct (known a) eqn:K; [|exact IH].
  cbn [filter]. unfold known in K. apply negb_true_iff in K.
  rewrite K. exact IH.
Qed.

(** Two first parts that differ only by output in front of the rest. *)
Lemma bind_prefix {A B} (m m' : Prog A) (k : A -> Prog B) (s s' : State)
  (o : Outcome A) (ev ev0 : list Event) :
  m s = mkResult o s' (ev ++ ev0) ->
  m' s = mkResult o s' ev0 ->
  (x <- m ;; k x) s =
  mkResult (outcome ((x <- m' ;; k x) s)) (final ((x <- m' ;; k x) s))
           (ev ++ events ((x <- m' ;; k x) s)).
Proof.
  intros H H'. unfold bind. rewrite H, H'. cbn [outcome final events].
  destruct o; cbn [outcome final events]; rewrite <- ?app_assoc; reflexivity.
Qed.

(** X6. Arguments that are none of [--mG], [--mfa] and [--help] change
    nothing but the warnings: the run ends the same way and in the same
    state as without them, and its events are the warnings, for the unknown
    arguments in front of the first [--help], followed by the events of
    the run without them. *)
Theorem X6_unknown_arguments (fuel : nat) (prog : string)
  (args : list string) (cin : list text) (l0 : lib_state) :
  run fuel (prog :: args) cin l0 =
  mkResult (outcome (run fuel (prog :: filter known args) cin l0))
           (final (run fuel (prog :: filter known args) cin l0))
           (warnings (until_help args)
            ++ events (run fuel (prog :: filter known args) cin l0)).
Proof.
  unfold run, main.
  pose proof (parse_command_line_run (prog :: args) (mkState 0%Z l0 cin))
    as H.
  pose proof (parse_command_line_run (prog :: filter known args)
                (mkState 0%Z l0 cin)) as H'.
  cbn [tl] in H, H'.
  rewrite filter_known_help, filter_known_until_help, filter_known_mode,
    filter_known_warnings in H'.
  cbn [app] in H'.
  exact (bind_prefix _ _ _ _ _ _ _ _ H H').
Qed.


(** ** The end of a run *)

(** X7. On an input of finitely many lines the loop ends after at most one
    test of its condition per line and one more: any fuel above the number
    of lines gives the same run, and the process status is 0, by [exit]
    when [--help] is among the arguments and by the end of [main]
    otherwise. *)
Theorem X7_run_ends_with_status_0 (fuel fuel' : nat) (argv : list string)
  (cin : list text) (l0 : lib_state) :
  (List.length cin < fuel)%nat ->
  (List.length cin < fuel')%nat ->
  run fuel argv cin l0 = run fuel' argv cin l0
  /\ outcome (run fuel argv cin l0)
     = (if existsb is_help (tl argv) then Exit 0%Z else Return 0%Z).
Proof.
  intros Hf Hf'.
  destruct (existsb is_help (tl argv)) eqn:E.
  - apply existsb_is_help in E.
    rewrite !(run_help _ argv cin l0 E). split; reflexivity.
  - assert (Hh : ~ In "--help" (tl argv)).
    { intros Hin. apply existsb_is_help in Hin. congruence. }
    rewrite (run_no_help fuel argv cin l0 Hh Hf).
    rewrite (run_no_help fuel' argv cin l0 Hh Hf'). split; reflexivity.
Qed.

(** ** [WriteDescription] *)

Lemma warnings_not_description (args : list string) :
  Forall not_description (warnings args).
Proof.
  unfold warnings. induction (filter unknown args) as [|a r IH];
    constructor; [|exact IH].
  intros H. discriminate H.
Qed.

Lemma prompt_not_description (t : Z) :
  Forall not_description (prompt_events t).
Proof.
  unfold prompt_events.
  destruct (t =? TYPE_MG)%Z; [|destruct (t =? TYPE_MFA)%Z];
    repeat (apply Forall_cons; [intros H; discriminate H|]);
    apply Forall_nil.
Qed.

Lemma iter_not_description (h : Handles) (t : Z) (cs : CouplingSet)
  (l : lib_state) :
  Forall not_description (iter_events h t cs l).
Proof.
  unfold iter_events, setter_events, getter_events, wimp_events,
    rates_events, table_events.
  apply Forall_cons; [intros H; discriminate H|].
  apply Forall_app. split.
  { destruct (t =? TYPE_MG)%Z; [|destruct (t =? TYPE_MFA)%Z];
      repeat (apply Forall_cons; [intros H; discriminate H|]);
      apply Forall_nil. }
  repeat (apply Forall_app; split);
    repeat (apply Forall_cons; [intros H; discriminate H|]);
    apply Forall_nil.
Qed.

Lemma loop_not_description (h : Handles) (t : Z) (cin : list text) :
  forall l, Forall not_description (loop_events h t l cin).
Proof.
  unfold loop_events. induction cin as [|line rest IH]; intros l.
  - apply prompt_not_description.
  - cbn [loop_run]. destruct (parse_line line) as [cs|].
    + specialize (IH (iter_lib h t cs l)).
      destruct (loop_run h t (iter_lib h t cs l) rest) as [[l' c'] ev].
      cbn [snd] in *.
      apply Forall_app; split; [apply prompt_not_description|].
      apply Forall_app; split; [apply iter_not_description|assumption].
    + apply prompt_not_description.
Qed.

(** X8. [WriteDescription] only writes lines and leaves the state as it
    was: four opening lines, the second of them ["Enter WIMP parameters
    below..."], and, for one of the two modes, five lines that name the
    fields; for another [type] nothing more.  [main] never calls it: no run
    writes that line. *)
Theorem X8_WriteDescription_unused (type : Z) (s : State) (fuel : nat)
  (argv : list string) (cin : list text) (l0 : lib_state) :
  (List.length cin < fuel)%nat ->
  outcome (WriteDescription type s) = Return tt
  /\ final (WriteDescription type s) = s
  /\ (forall e, In e (events (WriteDescription type s)) ->
                exists line, e = Cout line)
  /\ nth_error (events (WriteDescription type s)) 1
     = Some (Cout description_line)
  /\ List.length (events (WriteDescription type s))
     = (if ((type =? TYPE_MG) || (type =? TYPE_MFA))%Z then 9 else 4)%nat
  /\ ~ In (Cout description_line) (events (run fuel argv cin l0)).
Proof.
  intros Hf.
  assert (HW : (forall e, In e (events (WriteDescription type s)) ->
                          exists line, e = Cout line)
               /\ outcome (WriteDescription type s) = Return tt
               /\ final (WriteDescription type s) = s
               /\ nth_error (events (WriteDescription type s)) 1
                  = Some (Cout description_line)
               /\ List.length (events (WriteDescription type s))
                  = (if ((type =? TYPE_MG) || (type =? TYPE_MFA))%Z
                     then 9 else 4)%nat).
  { unfold WriteDescription.
    destruct (type =? TYPE_MG)%Z; [|destruct (type =? TYPE_MFA)%Z];
      (split; [|repeat split]);
      intros e He; cbn in He;
      repeat (destruct He as [<- | He]; [eexists; reflexivity|]);
      contradiction. }
  destruct HW as (H1 & H2 & H3 & H4 & H5).
  repeat (split; [assumption|]).
  intros Hin.
  assert (Hall : Forall not_description (events (run fuel argv cin l0))).
  { destruct (in_dec string_dec "--help" (tl argv)) as [Hh|Hh].
    - rewrite (run_help fuel argv cin l0 Hh). cbn [events].
      apply Forall_app. split; [apply warnings_not_description|].
      unfold usage_events.
      repeat (apply Forall_cons; [intros H; discriminate H|]).
      apply Forall_nil.
    - rewrite (run_no_help fuel argv cin l0 Hh Hf). cbv zeta. cbn [events].
      apply Forall_app. split; [apply warnings_not_description|].
      apply Forall_app. split.
      { unfold init_events.
        repeat (apply Forall_cons; [intros H; discriminate H|]).
        apply Forall_nil. }
      apply Forall_app. split; [apply loop_not_description|].
      apply Forall_cons; [intros H; discriminate H|apply Forall_nil]. }
  rewrite Forall_forall in Hall. exact (Hall _ Hin eq_refl).
Qed.


(** ** The reports are written line by line *)

Lemma loop_events_app (h : Handles) (t : Z) (good : list text) :
  Forall accepted good ->
  forall l, exists before,
    forall more,
      loop_events h t l (good ++ more)
      = before ++ loop_events h t (loop_lib h t l good) more.
Proof.
  unfold loop_events, loop_lib.
  induction 1 as [|line good Hl _ IH]; intros l.
  - exists []. intros more. reflexivity.
  - unfold accepted in Hl. cbn [app loop_run].
    destruct (parse_line line) as [cs|]; [|contradiction].
    destruct (IH (iter_lib h t cs l)) as [b Hb].
    exists (prompt_events t ++ iter_events h t cs l ++ b). intros more.
    specialize (Hb more).
    destruct (loop_run h t (iter_lib h t cs l) (good ++ more))
      as [[l1 c1] ev1].
    destruct (loop_run h t (iter_lib h t cs l) good) as [[l2 c2] ev2].
    cbn [fst snd] in *. rewrite Hb, <- !app_assoc. reflexivity.
Qed.

(** X10. What the program has written and called when it prompts for the
    line behind [n] accepted lines does not depend on what follows on the
    input: the run on the [n] lines alone is that beginning, the last
    prompt and [FreeAll], and every run on a longer input starts with the
    same beginning. *)
Theorem X10_reports_do_not_wait (fuel : nat) (argv : list string)
  (good : list text) (l0 : lib_state) :
  ~ In "--help" (tl argv) ->
  Forall accepted good ->
  (List.length good < fuel)%nat ->
  exists before,
    events (run fuel argv good l0)
    = before ++ prompt_events (st_type (final (run fuel argv good l0)))
      ++ [Call_FreeAll]
    /\ forall more fuel',
         (List.length (good ++ more) < fuel')%nat ->
         exists after,
           events (run fuel' argv (good ++ more) l0) = before ++ after.
Proof.
  intros Hh Hg Hf.
  rewrite (run_no_help fuel argv good l0 Hh Hf). cbv zeta.
  cbn [events final st_type].
  set (t := mode_after TYPE_MFA (tl argv)).
  set (h := fst (init_handles l0)).
  set (l1 := snd (init_handles l0)).
  destruct (loop_events_app h t good Hg l1) as [b Hb].
  exists (warnings (tl argv) ++ init_events h ++ b). split.
  - pose proof (Hb []) as H0. rewrite app_nil_r in H0. rewrite H0.
    change (loop_events h t (loop_lib h t l1 good) [])
      with (prompt_events t).
    rewrite <- !app_assoc. reflexivity.
  - intros more fuel' Hf'.
    rewrite (run_no_help fuel' argv _ l0 Hh Hf'). cbv zeta. cbn [events].
    fold t h l1. rewrite (Hb more).
    exists (loop_events h t (loop_lib h t l1 good) more ++ [Call_FreeAll]).
    rewrite <- !app_assoc. reflexivity.
Qed.

End Program.

Arguments mkResult {F L A} _ _ _.
Arguments outcome {F L A} _.
Arguments final {F L A} _.
Arguments events {F L A} _.

(** ** The theorems on concrete input *)

#[local] Existing Instance text_float.
#[local] Existing Instance toy_lib.

Ltac not_in := cbn; intuition discriminate.





Lemma C2_witness :
  GetWIMPParams TYPE_MFA (mkState TYPE_MFA toy_ready [txt "100 4.0e-9"; txt ""])
  = mkResult (Return (Some (mkCS "100" "4.0e-9" "4.0e-9" "0.0" "0.0")))
             (mkState TYPE_MFA toy_ready [txt ""]) (prompt_events TYPE_MFA).
Proof.
  apply (C2_two_fields TYPE_MFA
           (mkState TYPE_MFA toy_ready [txt "100 4.0e-9"; txt ""])
           (txt "100 4.0e-9") [txt ""] "100" "4.0e-9" []);
    reflexivity.
Defined.

Lemma C3_witness :
  GetWIMPParams TYPE_MG (mkState TYPE_MG toy_ready [txt "50 1 2 3"])
  = mkResult (Return (Some (mkCS "50" "1" "2" "3" "3")))
             (mkState TYPE_MG toy_ready []) (prompt_events TYPE_MG)
  /\ GetWIMPParams TYPE_MG (mkState TYPE_MG toy_ready [txt "50 1 2 3 -4.5"])
     = mkResult (Return (Some (mkCS "50" "1" "2" "3" "-4.5")))
                (mkState TYPE_MG toy_ready []) (prompt_events TYPE_MG).
Proof.
  split.
  - apply (proj1 (C3_four_and_five_fields TYPE_MG
                    (mkState TYPE_MG toy_ready [txt "50 1 2 3"])
                    (txt "50 1 2 3") [] eq_refl)
                 "50" "1" "2" "3" []); reflexivity.
  - apply (proj2 (C3_four_and_five_fields TYPE_MG
                    (mkState TYPE_MG toy_ready [txt "50 1 2 3 -4.5"])
                    (txt "50 1 2 3 -4.5") [] eq_refl)
                 "50" "1" "2" "3" "-4.5" []); reflexivity.
Defined.

Lemma C10_witness :
  GetWIMPParams TYPE_MFA
    (mkState TYPE_MFA toy_ready [txt "50 1 2 3 4 5 six"])
  = mkResult (Return (Some (mkCS "50" "1" "2" "3" "4")))
             (mkState TYPE_MFA toy_ready []) (prompt_events TYPE_MFA)
  /\ parse_line (txt "50 1 2 3 4 5 six") = parse_line (txt "50 1 2 3 4").
Proof.
  apply (C10_extra_tokens_ignored TYPE_MFA
           (mkState TYPE_MFA toy_ready [txt "50 1 2 3 4 5 six"])
           (txt "50 1 2 3 4") " "%char (txt "5 six") []
           "50" "1" "2" "3" "4" []); reflexivity.
Defined.



Lemma C5_witness :
  st_type (final (parse_command_line ["DDCalc_exampleC"; "-v"; "--mG"; "--help"]
                    (mkState 0 toy0 []))) = TYPE_MG
  /\ st_type (final (parse_command_line ["DDCalc_exampleC"; "-v"]
                       (mkState 0 toy0 []))) = TYPE_MFA
  /\ parse_arg "-v" (mkState TYPE_MG toy0 [])
     = mkResult (Return tt) (mkState TYPE_MG toy0 [])
                [Cout "WARNING:  Ignoring unknown argument '-v'."].
Proof.
  split; [|split].
  - apply (proj1 (C5_mode_from_flags
                    ["DDCalc_exampleC"; "-v"; "--mG"; "--help"]
                    (mkState 0 toy0 []))
                 ["-v"] ["--help"]); [reflexivity|not_in|not_in].
  - apply (proj1 (proj2 (C5_mode_from_flags ["DDCalc_exampleC"; "-v"]
                           (mkState 0 toy0 [])))); not_in.
  - apply (proj2 (proj2 (proj2 (C5_mode_from_flags ["DDCalc_exampleC"]
                                  (mkState 0 toy0 []))))
                 "-v" (mkState TYPE_MG toy0 [])); discriminate.
Defined.

(** C5, as stated, fails: the vector holds [--mG] and no [--mfa], and the
    process leaves at [--help] with [type] still [TYPE_MFA]. *)
Lemma C5_counterexample :
  In "--mG" (tl ["DDCalc_exampleC"; "--help"; "--mG"])
  /\ ~ In "--mfa" (tl ["DDCalc_exampleC"; "--help"; "--mG"])
  /\ outcome (parse_command_line ["DDCalc_exampleC"; "--help"; "--mG"]
                (mkState 0 toy0 [])) = Exit 0%Z
  /\ st_type (final (parse_command_line ["DDCalc_exampleC"; "--help"; "--mG"]
                       (mkState 0 toy0 []))) = TYPE_MFA
  /\ st_type (final (parse_command_line ["DDCalc_exampleC"; "--help"; "--mG"]
                       (mkState 0 toy0 []))) <> TYPE_MG.
Proof.
  split; [cbn; tauto|]. split; [not_in|].
  split; [reflexivity|]. split; [reflexivity|discriminate].
Qed.

Lemma C6_witness :
  outcome (run 1 ["DDCalc_exampleC"; "-v"; "--help"; "-w"] [txt "1 2"] toy0)
  = Exit 0%Z
  /\ events (run 1 ["DDCalc_exampleC"; "-v"; "--help"; "-w"] [txt "1 2"] toy0)
     = [Cout "WARNING:  Ignoring unknown argument '-v'.";
        Cout "Usage:";
        Cout "  ./DDCalc_exampleC [--mG|--mfa]";
        Cout "where the optional flag specifies the form in which the WIMP-";
        Cout "nucleon couplings will be provided (default: --mfa)."].
Proof.
  destruct (C6_help_exits 1 ["DDCalc_exampleC"; "-v"; "--help"; "-w"]
              [txt "1 2"] toy0) as (Ho & He & _).
  - cbn. tauto.
  - split; [exact Ho|exact He].
Defined.

(** C6, as stated, fails: the usage message has four lines, not two. *)
Lemma C6_counterexample :
  events (run 1 ["DDCalc_exampleC"; "--help"] [] toy0)
  = [Cout "Usage:";
     Cout "  ./DDCalc_exampleC [--mG|--mfa]";
     Cout "where the optional flag specifies the form in which the WIMP-";
     Cout "nucleon couplings will be provided (default: --mfa)."]
  /\ List.length (events (run 1 ["DDCalc_exampleC"; "--help"] [] toy0)) <> 2%nat.
Proof. split; [reflexivity|discriminate]. Qed.

Lemma C7_witness :
  events (input_loop 1 toy_handles (mkState TYPE_MG toy_ready [txt "100 1"]))
  = prompt_events TYPE_MG
    ++ [Cout "";
        Call_SetWIMP_mG 2 (mkCS (F:=text_float) "100" "1" "1" "0.0" "0.0");
        Call_GetWIMP_mfa 2; Call_GetWIMP_mG 2]
    ++ wimp_events (mkCS (F:=text_float) "100" "1" "1" "0.0" "0.0")
                   (mkCS (F:=text_float) "100" "1" "1" "0.0" "0.0")
    ++ [Call_CalcRates 3 2 1; Call_CalcRates 4 2 1;
        Call_CalcRates 5 2 1; Call_CalcRates 6 2 1]
    ++ table_events toy_handles
         (mkToy 7 (mkCS (F:=text_float) "100" "1" "1" "0.0" "0.0"))
    ++ events (input_loop 0 toy_handles
                 (mkState TYPE_MG
                    (mkToy 7 (mkCS (F:=text_float) "100" "1" "1" "0.0" "0.0"))
                    [])).
Proof.
  exact (proj1 (C7_iteration_order 0 toy_handles
                  (mkState TYPE_MG toy_ready [txt "100 1"])
                  (txt "100 1") []
                  (mkCS (F:=text_float) "100" "1" "1" "0.0" "0.0")
                  eq_refl eq_refl (or_introl eq_refl))).
Defined.

(** C7, as stated, fails: the WIMP mass, which belongs to the report, is
    written in front of the first call of [CalcRates]. *)
Lemma C7_counterexample :
  exists pre mid post,
    events (update_and_report toy_handles (mkCS (F:=text_float) "100" "1" "1" "0.0" "0.0")
              (mkState TYPE_MG toy_ready []))
    = pre
      ++ Printf "%s %- #12.5g\n" [PStr "WIMP mass [GeV]     "; PDbl "100"]
      :: mid ++ Call_CalcRates 3 2 1 :: post.
Proof.
  exists [Cout ""; Call_SetWIMP_mG 2 (mkCS (F:=text_float) "100" "1" "1" "0.0" "0.0");
          Call_GetWIMP_mfa 2; Call_GetWIMP_mG 2].
  exists [@Cout text_float "";
          Printf "%-28s %11s %11s %11s %11s\n"
            [PStr "WIMP-nucleon couplings"; PStr " proton-SI ";
             PStr " neutron-SI"; PStr " proton-SD "; PStr " neutron-SD"];
          Printf "%-28s %- #11.5g %- #11.5g %- #11.5g %- #11.5g\n"
            [PStr "  G [GeV^-2]"; PDbl (F:=text_float) "1"; PDbl (F:=text_float) "1"; PDbl (F:=text_float) "0.0"; PDbl (F:=text_float) "0.0"];
          Printf "%-28s %- #11.5g %- #11.5g %- #11.5g %- #11.5g\n"
            [PStr "  f & a [GeV^-2,unitless]"; PDbl (F:=text_float) "1"; PDbl (F:=text_float) "1";
             PDbl (F:=text_float) "0.0"; PDbl (F:=text_float) "0.0"];
          Cout ""].
  exists ([Call_CalcRates 4 2 1; Call_CalcRates 5 2 1; Call_CalcRates 6 2 1]
          ++ table_events toy_handles toy_ready).
  vm_compute. reflexivity.
Qed.

Lemma C8_witness :
  events (run 3 ["DDCalc_exampleC"; "-v"] [txt "100 1"; txt ""] toy0)
  = warnings ["-v"]
    ++ [Call_InitHalo 1; Call_InitWIMP 2; Call_XENON100_2012_Init 3;
        Call_LUX_2013_Init 4; Call_SuperCDMS_2014_Init 5;
        Call_SIMPLE_2014_Init 6]
    ++ events (input_loop 3 toy_handles
                 (mkState TYPE_MFA toy_ready [txt "100 1"; txt ""]))
    ++ [Call_FreeAll]
  /\ Forall (loop_event toy_handles)
       (events (input_loop 3 toy_handles
                  (mkState TYPE_MFA toy_ready [txt "100 1"; txt ""]))).
Proof.
  destruct (C8_handles_before_loop 3 ["DDCalc_exampleC"; "-v"]
              [txt "100 1"; txt ""] toy0) as (He & _ & Hall & _).
  - not_in.
  - cbn. lia.
  - split; [exact He|exact Hall].
Defined.

Lemma C9_witness :
  st_type (final (parse_command_line
                    ["DDCalc_exampleC"; "--mfa"; "--mG"; "-v"; "--help"]
                    (mkState 0 toy0 []))) = TYPE_MG
  /\ st_type (final (parse_command_line
                       ["DDCalc_exampleC"; "--mG"; "--mfa"]
                       (mkState 0 toy0 []))) = TYPE_MFA.
Proof.
  split.
  - apply (proj1 (C9_last_flag_wins
                    ["DDCalc_exampleC"; "--mfa"; "--mG"; "-v"; "--help"]
                    ["--mfa"] ["-v"; "--help"] "--mG" (mkState 0 toy0 [])
                    eq_refl (or_introl eq_refl)
                    ltac:(not_in) ltac:(not_in) ltac:(not_in))).
  - apply (proj1 (C9_last_flag_wins
                    ["DDCalc_exampleC"; "--mG"; "--mfa"]
                    ["--mG"] [] "--mfa" (mkState 0 toy0 [])
                    eq_refl (or_intror eq_refl)
                    ltac:(not_in) ltac:(not_in) ltac:(not_in))).
Defined.

(** ** The further properties on concrete input *)

Lemma X1_witness :
  GetWIMPParams TYPE_MFA (mkState TYPE_MFA toy_ready [txt "100 1e-9 2e-9"])
  = mkResult (Return (Some (mkCS "100" "1e-9" "2e-9" "0.0" "0.0")))
             (mkState TYPE_MFA toy_ready []) (prompt_events TYPE_MFA).
Proof.
  apply (X1_three_fields TYPE_MFA
           (mkState TYPE_MFA toy_ready [txt "100 1e-9 2e-9"])
           (txt "100 1e-9 2e-9") [] "100" "1e-9" "2e-9" []); reflexivity.
Defined.

Lemma X2_witness :
  parse_line (txt "100 4.0e-9 -.5")
  = Some (mkCS "100" "4.0e-9" "-.5" "0.0" "0.0").
Proof.
  apply (X2_parse_line_tokens (F:=text_float)
           [txt "100"; txt "4.0e-9"; txt "-.5"]
           (["100"; "4.0e-9"; "-.5"] : list (@double text_float))).
  repeat constructor; eexists; split; reflexivity.
Defined.

Lemma X3_witness :
  parse_line (txt "   1 2  ") = parse_line (txt "1 2")
  /\ GetWIMPParams TYPE_MG (mkState TYPE_MG toy_ready [txt "   1 2  "])
     = mkResult (Return (parse_line (txt "1 2")))
                (mkState TYPE_MG toy_ready []) (prompt_events TYPE_MG).
Proof.
  apply (X3_surrounding_white_space TYPE_MG
           (mkState TYPE_MG toy_ready [txt "   1 2  "])
           (txt "   ") (txt "1 2") (txt "  ") []); reflexivity.
Defined.

Lemma X4_witness :
  parse_line (txt " xyz 1 2") = None
  /\ input_loop 1 toy_handles
       (mkState TYPE_MFA toy_ready [txt " xyz 1 2"; txt "1 2"])
     = mkResult (Return tt) (mkState TYPE_MFA toy_ready [txt "1 2"])
                (prompt_events TYPE_MFA).
Proof.
  apply (X4_line_not_starting_a_number 0 toy_handles
           (mkState TYPE_MFA toy_ready [txt " xyz 1 2"; txt "1 2"])
           (txt " xyz 1 2") [txt "1 2"] "x"%char (txt "yz 1 2"));
    reflexivity.
Defined.

Lemma X5_witness :
  count is_CalcRates
    (events (run 4 ["DDCalc_exampleC"; "--mG"]
                 [txt "100 1"; txt "50 2 3"; txt ""] toy0)) = 8%nat
  /\ count is_FreeAll
       (events (run 4 ["DDCalc_exampleC"; "--mG"]
                    [txt "100 1"; txt "50 2 3"; txt ""] toy0)) = 1%nat.
Proof.
  destruct (X5_calls_of_a_run 4 ["DDCalc_exampleC"; "--mG"]
              [txt "100 1"; txt "50 2 3"] [txt ""] toy0)
    as (Hc & _ & _ & _ & Hf).
  - not_in.
  - repeat constructor; discriminate.
  - right. exists (txt ""), []. split; [reflexivity|]. left. reflexivity.
  - cbn. lia.
  - split; [exact Hc|exact Hf].
Defined.

Lemma X7_witness :
  run 2 ["DDCalc_exampleC"] [txt "100 1"] toy0
  = run 7 ["DDCalc_exampleC"] [txt "100 1"] toy0
  /\ outcome (run 2 ["DDCalc_exampleC"] [txt "100 1"] toy0) = Return 0%Z.
Proof.
  apply (X7_run_ends_with_status_0 2 7 ["DDCalc_exampleC"] [txt "100 1"]
           toy0); cbn; lia.
Defined.

Lemma X8_witness :
  List.length (events (WriteDescription 3 (mkState 3 toy0 []))) = 4%nat
  /\ ~ In (Cout description_line)
          (events (run 2 ["DDCalc_exampleC"] [txt "100 1"] toy0)).
Proof.
  destruct (X8_WriteDescription_unused 3 (mkState 3 toy0 []) 2
              ["DDCalc_exampleC"] [txt "100 1"] toy0)
    as (_ & _ & _ & _ & Hl & Hn).
  - cbn. lia.
  - split; [exact Hl|exact Hn].
Defined.

Lemma X9_witness :
  List.length ["1"; "-2"] = 2%nat
  /\ (2 + List.length (@nil ascii) <= List.length (txt "1-2"))%nat.
Proof.
  apply (X9_reads_consume (F:=text_float) 2 (txt "1-2")
           (["1"; "-2"] : list (@double text_float)) []).
  reflexivity.
Defined.

Lemma X10_witness :
  exists before,
    events (run 2 ["DDCalc_exampleC"] [txt "100 1"] toy0)
    = before ++ prompt_events TYPE_MFA ++ [Call_FreeAll]
    /\ exists after,
         events (run 3 ["DDCalc_exampleC"] [txt "100 1"; txt "7 8 9"] toy0)
         = before ++ after.
Proof.
  destruct (X10_reports_do_not_wait 2 ["DDCalc_exampleC"] [txt "100 1"] toy0)
    as (before & Hb & Hm).
  - not_in.
  - repeat constructor; discriminate.
  - cbn. lia.
  - exists before. split; [exact Hb|].
    apply (Hm [txt "7 8 9"] 3%nat). cbn. lia.
Defined.
